(** * DRAW bot: the Telegram webhook handler and its points ledger

    A shallow embedding of [src/app/api/telegram/route.ts]: the string
    helpers the handler relies on, the [users] table behind the Supabase
    client, the in-memory [pendingTasks] record, and the handler [POST]
    itself, followed by the properties of the interaction state machine
    and of the ledger. *)

From Stdlib Require Import ZArith QArith Qround Lia List.
From Stdlib Require Import Ascii String DecimalString DecimalZ.
From stdpp Require Import gmap strings.

Local Open Scope Z_scope.
Local Open Scope string_scope.

(** ** JavaScript strings

    A string is a sequence of code units; the embedding covers the code
    units below 256, one [ascii] each. *)

Module Js.

(** The white space and line terminator code units below 256: TAB, LF, VT,
    FF, CR, SP and NBSP. They are what [trim] and [parseInt] skip. *)
Definition isWhiteSpace (c : ascii) : bool :=
  let n := N_of_ascii c in
  ((9 <=? n) && (n <=? 13) || (n =? 32) || (n =? 160))%N.

Fixpoint trimStart (s : string) : string :=
  match s with
  | String c s' => if isWhiteSpace c then trimStart s' else s
  | EmptyString => EmptyString
  end.

Fixpoint trimEnd (s : string) : string :=
  match s with
  | EmptyString => EmptyString
  | String c s' =>
      match trimEnd s' with
      | EmptyString => if isWhiteSpace c then EmptyString else String c EmptyString
      | t => String c t
      end
  end.

(** [s.trim()] *)
Definition trim (s : string) : string := trimEnd (trimStart s).

(** [s.startsWith(p)] *)
Fixpoint startsWith (s p : string) : bool :=
  match p, s with
  | EmptyString, _ => true
  | String a p', String b s' => if Ascii.eqb a b then startsWith s' p' else false
  | String _ _, EmptyString => false
  end.

(** [s.includes(p)] *)
Fixpoint includes (s p : string) : bool :=
  startsWith s p ||
  match s with
  | EmptyString => false
  | String _ s' => includes s' p
  end.

Definition digitValue (c : ascii) : option Z :=
  let n := N_of_ascii c in
  if ((48 <=? n) && (n <=? 57))%N then Some (Z.of_N n - 48) else None.

(** The mathematical value of the longest prefix of decimal digits of [s],
    continuing from [acc]. *)
Fixpoint digitsValue (s : string) (acc : Z) : Z :=
  match s with
  | String c s' =>
      match digitValue c with
      | Some d => digitsValue s' (10 * acc + d)
      | None => acc
      end
  | EmptyString => acc
  end.

(** [parseInt(s, 10)]: leading white space is skipped, one sign is taken,
    then the longest prefix of decimal digits is read and whatever follows
    is ignored; [None] stands for [NaN]. The result is kept as a
    mathematical integer (a digit string beyond 2^53 is rounded by the
    engine, which never brings it to a small integer). *)
Definition parseInt (s : string) : option Z :=
  let t := trimStart s in
  let '(sign, t) :=
    match t with
    | String "-" r => (-1, r)
    | String "+" r => (1, r)
    | _ => (1, t)
    end in
  match t with
  | String c _ =>
      match digitValue c with
      | Some _ => Some (sign * digitsValue t 0)
      | None => None
      end
  | EmptyString => None
  end.

(** [String(n)] and the [${n}] of a template literal, for an integer [n]. *)
Definition String_ (n : Z) : string := NilZero.string_of_int (Z.to_int n).

(** [Math.floor(x)] on a rational. *)
Definition floor (x : Q) : Z := Qfloor x.

Definition nl : string := String "010" EmptyString.

End Js.

(** ** Wire types and configuration *)

Record TelegramMessage := {
  message_id : Z;
  text : option string;
  chat_id : Z                          (* [message.chat.id] *)
}.

Record TelegramUpdate := {
  update_id : Z;
  message : option TelegramMessage
}.

Record Request := {
  secretHeader : option string;        (* [x-telegram-bot-api-secret-token] *)
  body : TelegramUpdate
}.

Record Response := {
  ok : bool;
  error : option string;
  status : Z
}.

(** The environment variables the handler reads. *)
Record Env := {
  TELEGRAM_WEBHOOK_SECRET : string;
  DRAWCOIN_VIDEO_URL : option string;
  DRAWCOIN_AD_URL : option string
}.

(** What one invocation takes from its surroundings:
    [new Date().toISOString()] and [Math.random()]. *)
Record Ambient := {
  now : string;
  random : Q
}.

(** ** The [users] table and the pending tasks *)

Record UserRow := {
  telegram_id : string;
  points : Z;
  created_at : string
}.

(** ['video' | 'ad' | 'guess'] *)
Inductive TaskType := Video | Ad | Guess.

Record PendingTask := {
  type : TaskType;
  number : option Z
}.

Definition TaskType_eqb (a b : TaskType) : bool :=
  match a, b with
  | Video, Video | Ad, Ad | Guess, Guess => true
  | _, _ => false
  end.

(** The name of a task type, as it is spliced into a reply. *)
Definition TaskType_name (t : TaskType) : string :=
  match t with Video => "video" | Ad => "ad" | Guess => "guess" end.

(** Modelled from the spec: the schema of the [users] table is not part of
    the sources; the table holds at most one User record per identity, so it
    is a finite map from [telegram_id] to the row. The three queries below
    are the ones the handler sends; the store answers each of them
    atomically and without failure. *)
Module Users.

(** [.select('*').eq('telegram_id', k).maybeSingle()] *)
Definition select (k : string) (t : gmap string UserRow) : option UserRow := t !! k.

(** [.insert(row).select().single()]: the row, or an error ([None]) when the
    identity already has one. *)
Definition insert (row : UserRow) (t : gmap string UserRow)
  : option UserRow * gmap string UserRow :=
  match t !! telegram_id row with
  | Some _ => (None, t)
  | None => (Some row, <[telegram_id row := row]> t)
  end.

(** [.update({ points: p }).eq('telegram_id', k)]: every matching row is
    rewritten; no row matching is not an error. *)
Definition update_points (p : Z) (k : string) (t : gmap string UserRow)
  : gmap string UserRow :=
  alter (λ r, {| telegram_id := telegram_id r; points := p; created_at := created_at r |}) k t.

End Users.

(** The state the handler works on: the table, the global
    [__DRAW_PENDING_TASKS__] record as one process keeps it, and the
    messages handed to Telegram, oldest first. *)
Record World := {
  users : gmap string UserRow;
  pendingTasks : gmap string PendingTask;
  outbox : list (Z * string)
}.

Definition M (A : Type) : Type := World → A * World.

Definition ret {A} (a : A) : M A := λ w, (a, w).

Definition bind {A B} (m : M A) (k : A → M B) : M B :=
  λ w, let '(a, w') := m w in k a w'.

Notation "'let*' x ':=' m 'in' k" := (bind m (λ x, k))
  (at level 10, x name, m at level 100, k at level 200, only parsing).

Definition withUsers {A} (f : gmap string UserRow → A * gmap string UserRow) : M A :=
  λ w, let '(a, t) := f (users w) in
       (a, {| users := t; pendingTasks := pendingTasks w; outbox := outbox w |}).

Definition withPending (f : gmap string PendingTask → gmap string PendingTask) : M unit :=
  λ w, (tt, {| users := users w; pendingTasks := f (pendingTasks w); outbox := outbox w |}).

(** [pendingTasks[key]] *)
Definition getPending (key : string) : M (option PendingTask) :=
  λ w, (pendingTasks w !! key, w).

Definition tgSendMessage (chatId : Z) (text : string) : M unit :=
  λ w, (tt, {| users := users w; pendingTasks := pendingTasks w;
               outbox := outbox w ++ [(chatId, text)] |}).

Definition getUser (telegramId : Z) : M (option UserRow) :=
  withUsers (λ t, (Users.select (Js.String_ telegramId) t, t)).

Definition createUser (amb : Ambient) (telegramId : Z) : M (option UserRow) :=
  withUsers (Users.insert {| telegram_id := Js.String_ telegramId;
                             points := 0;
                             created_at := now amb |}).

Definition ensureUser (amb : Ambient) (telegramId : Z) : M (option UserRow) :=
  let* user := getUser telegramId in
  match user with
  | None => createUser amb telegramId
  | Some _ => ret user
  end.

(** [user?.points ?? 0] *)
Definition pointsOr0 (user : option UserRow) : Z :=
  match user with Some u => points u | None => 0 end.

Definition updatePoints (telegramId delta : Z) : M Z :=
  let* user := getUser telegramId in
  let current := pointsOr0 user in
  let newPts := current + delta in
  let* _ := withUsers (λ t, (tt, Users.update_points newPts (Js.String_ telegramId) t)) in
  ret newPts.

(** ** The handler *)

Definition json (o : bool) (e : option string) (st : Z) : Response :=
  {| ok := o; error := e; status := st |}.

(** [v || d] for an environment variable: unset and empty both give [d]. *)
Definition orDefault (v : option string) (d : string) : string :=
  match v with
  | Some (String c s) => String c s
  | _ => d
  end.

Definition headerIs (h : option string) (secret : string) : bool :=
  match h with
  | Some s => String.eqb s secret
  | None => false
  end.

Definition isGuess (pending : option PendingTask) : bool :=
  match pending with
  | Some p => TaskType_eqb (type p) Guess
  | None => false
  end.

(** [current?.type === doneType] *)
Definition hasType (current : option PendingTask) (doneType : TaskType) : bool :=
  match current with
  | Some p => TaskType_eqb (type p) doneType
  | None => false
  end.

(** [guess === pending.number] *)
Definition isNumber (g : Z) (pending : option PendingTask) : bool :=
  match pending with
  | Some {| number := Some n |} => (g =? n)%Z
  | _ => false
  end.

Definition welcome (pts : Z) : string :=
  let dash := String "226" (String "128" (String "147" EmptyString)) in
  "Welcome to DRAW Bot!" ++ Js.nl ++
  "Your current points: " ++ Js.String_ pts ++ Js.nl ++
  "" ++ Js.nl ++
  "Commands:" ++ Js.nl ++
  "/click " ++ dash ++ " daily click (+1)" ++ Js.nl ++
  "/video " ++ dash ++ " watch a video (+5)" ++ Js.nl ++
  "/ad " ++ dash ++ " visit an ad (+3)" ++ Js.nl ++
  "/points " ++ dash ++ " show points" ++ Js.nl ++
  "/guess " ++ dash ++ " mini-game (guess 1" ++ dash ++ "5 for +2)".

(** The webhook handler, branch by branch in the order of the source. The
    store and Telegram answer every call, so nothing is thrown and the
    [catch] of the handler is never entered; the body of the request is
    taken as parsed. *)
Definition POST (env : Env) (amb : Ambient) (request : Request) : M Response :=
  if negb (headerIs (secretHeader request) (TELEGRAM_WEBHOOK_SECRET env)) then
    ret (json false (Some "forbidden") 403)
  else
  match message (body request) with
  | None => ret (json true None 200)
  | Some message =>
  let chatId := chat_id message in
  let text := Js.trim (default "" (text message)) in
  if (chatId =? 0)%Z then ret (json true None 200) else
  let key := Js.String_ chatId in
  let* pending := getPending key in
  if isGuess pending then
    let* _ :=
      match Js.parseInt text with
      | Some guess =>
          if isNumber guess pending then
            let* total := updatePoints chatId 2 in
            let* _ := withPending (delete key) in
            tgSendMessage chatId
              ("Correct! You earned 2 points." ++ Js.nl ++
               "Total points: " ++ Js.String_ total ++ ".")
          else
            tgSendMessage chatId "Wrong guess, try again!"
      | None =>
          tgSendMessage chatId "Please reply with a number between 1 and 5."
      end in
    ret (json true None 200)
  else if Js.startsWith text "/start" then
    let* user := ensureUser amb chatId in
    let pts := pointsOr0 user in
    let* _ := tgSendMessage chatId (welcome pts) in
    ret (json true None 200)
  else if Js.startsWith text "/points" then
    let* user := ensureUser amb chatId in
    let* _ := tgSendMessage chatId
                ("You have " ++ Js.String_ (pointsOr0 user) ++ " points.") in
    ret (json true None 200)
  else if Js.startsWith text "/click" then
    let* total := updatePoints chatId 1 in
    let* _ := tgSendMessage chatId
                ("Thanks for clicking! +1 point." ++ Js.nl ++
                 "Total points: " ++ Js.String_ total ++ ".") in
    ret (json true None 200)
  else if Js.startsWith text "/video" then
    let* _ := withPending (<[key := {| type := Video; number := None |}]>) in
    let videoUrl :=
      orDefault (DRAWCOIN_VIDEO_URL env) "https://www.youtube.com/watch?v=dQw4w9WgXcQ" in
    let* _ := tgSendMessage chatId
                ("Watch this video: " ++ videoUrl ++ Js.nl ++
                 "Send /done video when finished to claim points.") in
    ret (json true None 200)
  else if Js.startsWith text "/ad" then
    let* _ := withPending (<[key := {| type := Ad; number := None |}]>) in
    let adUrl := orDefault (DRAWCOIN_AD_URL env) "https://example.com/ad" in
    let* _ := tgSendMessage chatId
                ("Visit this ad: " ++ adUrl ++ Js.nl ++
                 "Send /done ad when done to claim points.") in
    ret (json true None 200)
  else if Js.startsWith text "/done video" || Js.startsWith text "/done ad" then
    let doneType := if Js.includes text "video" then Video else Ad in
    let* current := getPending key in
    let* _ :=
      if hasType current doneType then
        let pts := match doneType with Video => 5 | _ => 3 end in
        let* total := updatePoints chatId pts in
        let* _ := withPending (delete key) in
        tgSendMessage chatId
          ("Thanks! You earned " ++ Js.String_ pts ++ " points." ++ Js.nl ++
           "Total points: " ++ Js.String_ total ++ ".")
      else
        tgSendMessage chatId
          ("You have no pending " ++ TaskType_name doneType ++ " task. Use /" ++
           TaskType_name doneType ++ " to start one.") in
    ret (json true None 200)
  else if Js.startsWith text "/guess" then
    let num := Js.floor (random amb * 5) + 1 in
    let* _ := withPending (<[key := {| type := Guess; number := Some num |}]>) in
    let* _ := tgSendMessage chatId
                "Guess a number between 1 and 5. Reply with your guess." in
    ret (json true None 200)
  else
    let* _ := tgSendMessage chatId
                "Unknown command. Send /start to see available commands." in
    ret (json true None 200)
  end.

(** ** Event sequences *)

(** The world after one invocation, and after a sequence of them handled
    one after the other. *)
Definition handle (env : Env) (w : World) (ev : Ambient * Request) : World :=
  (POST env ev.1 ev.2 w).2.

Definition run (env : Env) (evs : list (Ambient * Request)) (w : World) : World :=
  fold_left (handle env) evs w.

(** The balance of an identity as the handler reads it ([points ?? 0]), and
    its pending task. *)
Definition balance (w : World) (userId : Z) : Z :=
  pointsOr0 (users w !! Js.String_ userId).

Definition pendingOf (w : World) (userId : Z) : option PendingTask :=
  pendingTasks w !! Js.String_ userId.

(** The identity an inbound request speaks for, when it carries a message. *)
Definition eventUser (request : Request) : option Z :=
  chat_id <$> message (body request).

(** [message.text || ''] of the message a request carries. *)
Definition rawText (request : Request) : string :=
  default "" (message (body request) ≫= text).

(** [request] passes the secret check and carries the text [raw] (the empty
    string when the message has none) from the chat [chatId]. *)
Definition delivers (env : Env) (request : Request) (chatId : Z) (raw : string) : Prop :=
  headerIs (secretHeader request) (TELEGRAM_WEBHOOK_SECRET env) = true ∧
  eventUser request = Some chatId ∧
  rawText request = raw.

(** The world with one more message handed to Telegram. *)
Definition said (w : World) (chatId : Z) (reply : string) : World :=
  (tgSendMessage chatId reply w).2.

(** Every pending guess task carries a target between 1 and 5. *)
Definition targetsInRange (w : World) : Prop :=
  ∀ k p, pendingTasks w !! k = Some p → type p = Guess →
         ∃ n, number p = Some n ∧ 1 <= n <= 5.

(** What one invocation may do to the table and to the pending tasks, for
    the key [key] of the chat it serves. *)
Inductive usersStep (key : string) (t : gmap string UserRow) : gmap string UserRow → Prop :=
| users_same : usersStep key t t
| users_created row :
    t !! key = None → points row = 0 → usersStep key t (<[key := row]> t)
| users_updated d :
    d ∈ [1; 2; 3; 5] →
    usersStep key t (Users.update_points (pointsOr0 (t !! key) + d) key t).

Inductive pendingStep (rnd : Q) (key : string) (p : gmap string PendingTask)
  : gmap string PendingTask → Prop :=
| pending_same : pendingStep rnd key p p
| pending_deleted : pendingStep rnd key p (delete key p)
| pending_begun ty :
    ty ≠ Guess → pendingStep rnd key p (<[key := {| type := ty; number := None |}]> p)
| pending_guess :
    pendingStep rnd key p
      (<[key := {| type := Guess; number := Some (Js.floor (rnd * 5) + 1) |}]> p).

(** ** Concurrent calls of [updatePoints]

    A call is suspended at each of its two awaited queries, and the store
    answers one query at a time. A call is therefore in one of three places:
    about to send the select, holding [newPts] and about to send the
    update, or returned. *)
Inductive Call :=
| AtSelect (telegramId delta : Z)
| AtUpdate (telegramId newPts : Z)
| Returned (newPts : Z).

Definition stepCall (c : Call) (t : gmap string UserRow) : Call * gmap string UserRow :=
  match c with
  | AtSelect telegramId delta =>
      let user := Users.select (Js.String_ telegramId) t in
      (AtUpdate telegramId (pointsOr0 user + delta), t)
  | AtUpdate telegramId newPts =>
      (Returned newPts, Users.update_points newPts (Js.String_ telegramId) t)
  | Returned newPts => (Returned newPts, t)
  end.

Definition isReturned (c : Call) : bool :=
  match c with Returned _ => true | _ => false end.

(** A schedule names, step by step, the call whose next query the store
    answers. *)
Fixpoint runSchedule (sched : list nat) (calls : list Call) (t : gmap string UserRow)
  : list Call * gmap string UserRow :=
  match sched with
  | [] => (calls, t)
  | i :: sched' =>
      match calls !! i with
      | Some c =>
          let '(c', t') := stepCall c t in
          runSchedule sched' (<[i := c']> calls) t'
      | None => runSchedule sched' calls t
      end
  end.

(** The schedule that lets call 0 finish, then call 1, and so on. *)
Definition serial (n : nat) : list nat :=
  flat_map (λ i, [i; i]) (seq 0 n).


(** The reply to a [/start] or [/points] text that reports [pts]. *)
Definition balanceReply (text : string) (pts : Z) : string :=
  if Js.startsWith text "/start" then welcome pts
  else "You have " ++ Js.String_ pts ++ " points.".

(** Two prefixes that disagree on a code unit both of them have: no text
    starts with both. *)
Fixpoint disagree (p q : string) : bool :=
  match p, q with
  | String a p', String b q' => if Ascii.eqb a b then disagree p' q' else true
  | _, _ => false
  end.

(** The row [createUser] inserts. *)
Definition newRow (amb : Ambient) (chatId : Z) : UserRow :=
  {| telegram_id := Js.String_ chatId; points := 0; created_at := now amb |}.

(** The three replies of the guess mode. *)
Definition guidance : string := "Please reply with a number between 1 and 5.".

Definition wrongGuess : string := "Wrong guess, try again!".

Definition correctGuess (total : Z) : string :=
  "Correct! You earned 2 points." ++ Js.nl ++ "Total points: " ++ Js.String_ total ++ ".".

Definition clicked (total : Z) : string :=
  "Thanks for clicking! +1 point." ++ Js.nl ++ "Total points: " ++ Js.String_ total ++ ".".

Definition noPending (doneType : TaskType) : string :=
  "You have no pending " ++ TaskType_name doneType ++ " task. Use /" ++
  TaskType_name doneType ++ " to start one.".

(** ** Concrete inputs *)

Module Sample.

Definition env : Env :=
  {| TELEGRAM_WEBHOOK_SECRET := "super-secret";
     DRAWCOIN_VIDEO_URL := None;
     DRAWCOIN_AD_URL := None |}.

(** An invocation whose [Math.random()] returns 1/2, so that a [/guess]
    picks the target 3. *)
Definition amb : Ambient :=
  {| now := "2025-01-01T00:00:00.000Z"; random := 1 # 2 |}.

(** The request Telegram sends for the text [t] typed in the chat [chatId]. *)
Definition textFrom (chatId : Z) (t : string) : Request :=
  {| secretHeader := Some "super-secret";
     body := {| update_id := 1;
                message := Some {| message_id := 1; text := Some t; chat_id := chatId |} |} |}.

(** No ledger row, no pending task, nothing sent. *)
Definition fresh : World :=
  {| users := ∅; pendingTasks := ∅; outbox := [] |}.

(** A table whose only row gives the identity 7 a balance of 0. *)
Definition oneUser : gmap string UserRow :=
  {[ "7" := {| telegram_id := "7"; points := 0; created_at := "2025-01-01T00:00:00.000Z" |} ]}.

End Sample.

(** ** What serving one message amounts to *)

(** The points the handler pays when it clears a task of each type. *)
Definition rewardOf (t : TaskType) : Z :=
  match t with Video => 5 | Ad => 3 | Guess => 2 end.

(** The tasks the handler stores: a video or ad task without a number, or a
    guess task with the target drawn from [Math.random()]. *)
Definition storedTask (amb : Ambient) (task : PendingTask) : Prop :=
  task = {| type := Video; number := None |} ∨
  task = {| type := Ad; number := None |} ∨
  task = {| type := Guess; number := Some (Js.floor (random amb * 5) + 1) |}.

(** The worlds one served message of the chat [chatId] can lead to: a reply
    and nothing else, a reply after [ensureUser] created the row, a reply
    after one point for a click, a reply after the reward for the pending
    task, which is deleted, or a reply after a task was stored. *)
Inductive serves (amb : Ambient) (chatId : Z) (w : World) : World → Prop :=
| serves_reply reply :
    serves amb chatId w (said w chatId reply)
| serves_created reply :
    users w !! Js.String_ chatId = None →
    serves amb chatId w
      {| users := <[Js.String_ chatId := newRow amb chatId]> (users w);
         pendingTasks := pendingTasks w;
         outbox := outbox w ++ [(chatId, reply)] |}
| serves_click reply :
    isGuess (pendingOf w chatId) = false →
    serves amb chatId w
      {| users := Users.update_points (balance w chatId + 1) (Js.String_ chatId) (users w);
         pendingTasks := pendingTasks w;
         outbox := outbox w ++ [(chatId, reply)] |}
| serves_reward task reply :
    pendingOf w chatId = Some task →
    serves amb chatId w
      {| users := Users.update_points (balance w chatId + rewardOf (type task))
                    (Js.String_ chatId) (users w);
         pendingTasks := delete (Js.String_ chatId) (pendingTasks w);
         outbox := outbox w ++ [(chatId, reply)] |}
| serves_begin task reply :
    isGuess (pendingOf w chatId) = false →
    storedTask amb task →
    serves amb chatId w
      {| users := users w;
         pendingTasks := <[Js.String_ chatId := task]> (pendingTasks w);
         outbox := outbox w ++ [(chatId, reply)] |}.


(** Every pending task has the shape the handler stores: no number on a
    video or ad task, a target of 1 to 5 on a guess task. *)
Definition tasksWellFormed (w : World) : Prop :=
  ∀ k p, pendingTasks w !! k = Some p →
         match type p with
         | Guess => ∃ n, number p = Some n ∧ 1 <= n <= 5
         | _ => number p = None
         end.

(** The remaining replies. *)
Definition unknownCommand : string :=
  "Unknown command. Send /start to see available commands.".

Definition earned (pts total : Z) : string :=
  "Thanks! You earned " ++ Js.String_ pts ++ " points." ++ Js.nl ++
  "Total points: " ++ Js.String_ total ++ ".".

Definition watchVideo (url : string) : string :=
  "Watch this video: " ++ url ++ Js.nl ++
  "Send /done video when finished to claim points.".

Definition visitAd (url : string) : string :=
  "Visit this ad: " ++ url ++ Js.nl ++ "Send /done ad when done to claim points.".

(** The number of calls that have returned. *)
Fixpoint returnedCount (calls : list Call) : nat :=
  match calls with
  | [] => 0
  | c :: calls' => (if isReturned c then 1 else 0) + returnedCount calls'
  end.

(** Where a call of [updatePoints(u, 1)] can be when the balance was [b] at
    the start and [returned] calls have returned: still before its select,
    holding a value read from a table that had at most [returned] updates,
    or returned with a value one of the updates wrote. *)
Definition incrementWithin (u b : Z) (returned : nat) (c : Call) : Prop :=
  match c with
  | AtSelect telegramId delta => telegramId = u ∧ delta = 1
  | AtUpdate telegramId newPts =>
      telegramId = u ∧ b + 1 <= newPts <= b + Z.of_nat returned + 1
  | Returned newPts => b + 1 <= newPts <= b + Z.of_nat returned
  end.

(** Where the call started as [updatePoints(telegramId, delta)] can be, on
    an identity no other call works on: it has not written and the row is
    as in the table [t0] of the start, or it has returned the balance of
    the start plus its delta and the row holds it. *)
Definition aloneOn (t0 t : gmap string UserRow) (spec : Z * Z) (c : Call) : Prop :=
  let key := Js.String_ spec.1 in
  let newPts := pointsOr0 (t0 !! key) + spec.2 in
  match c with
  | AtSelect telegramId delta =>
      telegramId = spec.1 ∧ delta = spec.2 ∧ t !! key = t0 !! key
  | AtUpdate telegramId n =>
      telegramId = spec.1 ∧ n = newPts ∧ t !! key = t0 !! key
  | Returned n =>
      n = newPts ∧ t !! key = Users.update_points newPts key t0 !! key
  end.

(** ** Start-up: the environment the module requires *)

(** [requireEnv(name)] over [process.env]: the value, or the message of the
    error thrown when the variable is unset or empty. *)
Definition requireEnv (processEnv : gmap string string) (name : string) : string + string :=
  match processEnv !! name with
  | Some (String c v) => inl (String c v)
  | _ => inr ("Missing env: " ++ name)
  end.

(** The constants the module computes when it is loaded, in the order of the
    source; the first error thrown ends the loading. *)
Record Constants := {
  TELEGRAM_BOT_TOKEN : string;
  WEBHOOK_SECRET : string;
  SUPABASE_URL : string;
  SUPABASE_KEY : string
}.

Definition loadConstants (processEnv : gmap string string) : Constants + string :=
  match requireEnv processEnv "TELEGRAM_BOT_TOKEN" with
  | inr e => inr e
  | inl token =>
  match requireEnv processEnv "TELEGRAM_WEBHOOK_SECRET" with
  | inr e => inr e
  | inl secret =>
  match requireEnv processEnv "SUPABASE_URL" with
  | inr e => inr e
  | inl url =>
      let key :=
        orDefault (processEnv !! "SUPABASE_SERVICE_ROLE_KEY")
          (orDefault (processEnv !! "SUPABASE_ANON_KEY") "") in
      inl {| TELEGRAM_BOT_TOKEN := token; WEBHOOK_SECRET := secret;
             SUPABASE_URL := url; SUPABASE_KEY := key |}
  end end end.

(** The environment the handler reads, out of [process.env] once the module
    is loaded. *)
Definition envOf (processEnv : gmap string string) (c : Constants) : Env :=
  {| TELEGRAM_WEBHOOK_SECRET := WEBHOOK_SECRET c;
     DRAWCOIN_VIDEO_URL := processEnv !! "DRAWCOIN_VIDEO_URL";
     DRAWCOIN_AD_URL := processEnv !! "DRAWCOIN_AD_URL" |}.

(** ** The dashboard *)

(** [data.points] of a row read by the dashboard. *)
Definition dataPoints (data : UserRow) : Z := points data.

Module Dashboard.

(** The state of the [BotDashboard] component. *)
Record State := {
  telegramId : string;
  loading : bool;
  points : option Z;
  error : option string
}.

(** [handleSubmit], from the submit to the state once the query has
    answered; [.single()] answers with an error when no row matches. *)
Definition handleSubmit (table : gmap string UserRow) (s : State) : State :=
  match telegramId s with
  | EmptyString =>
      {| telegramId := telegramId s; loading := loading s; points := None;
         error := Some "Please enter your Telegram ID" |}
  | _ =>
      match Users.select (telegramId s) table with
      | None =>
          {| telegramId := telegramId s; loading := false; points := None;
             error := Some "User not found or database error" |}
      | Some data =>
          {| telegramId := telegramId s; loading := false;
             points := Some (dataPoints data); error := None |}
      end
  end.

(** [setTelegramId(e.target.value)] *)
Definition onChange (value : string) (s : State) : State :=
  {| telegramId := value; loading := loading s; points := points s; error := error s |}.

(** The component as it is first rendered. *)
Definition initial : State :=
  {| telegramId := ""; loading := false; points := None; error := None |}.

End Dashboard.

(** * The handler with the failures and the arithmetic of the platform

    The definitions above take the store and Telegram as answering every
    call and numbers as exact. The module [Live] embeds the same source
    with what they leave out: a query that ends in an error, a [fetch] that
    rejects and is caught by the [catch] of the handler, and the double
    arithmetic of [current + delta] and of [Math.random() * 5]. *)

Module Double.

(** [n / 2^b] rounded to the nearest integer, ties to even. *)
Definition roundShift (n b : Z) : Z :=
  if (b <=? 0)%Z then n
  else
    let q := n / 2 ^ b in
    let r := n mod 2 ^ b in
    let half := 2 ^ (b - 1) in
    if (r <? half)%Z then q
    else if (half <? r)%Z then q + 1
    else if Z.even q then q else q + 1.

(** The double nearest to the integer [n >= 0]: 53 bits of significand are
    kept (the range of the exponent is not reached by the handler). *)
Definition fit (n : Z) : Z :=
  let b := Z.max 0 (Z.log2 n + 1 - 53) in
  roundShift n b * 2 ^ b.

(** [a + b] on doubles that hold integers. *)
Definition add (a b : Z) : Z :=
  let s := a + b in
  if (s <? 0)%Z then - fit (- s) else fit s.

End Double.

(** A value of [Math.random()]: the double [mantissa / 2^exponent]. *)
Record Random := {
  mantissa : Z;
  exponent : Z
}.

(** The doubles of [0, 1). *)
Definition inUnit (x : Random) : Prop :=
  0 <= mantissa x < 2 ^ 53 ∧ 0 <= exponent x <= 1074 ∧ mantissa x < 2 ^ exponent x.

(** [Math.floor(x * 5) + 1]: the exact product [5 * mantissa / 2^exponent]
    is rounded to a double, then floored. *)
Definition drawTarget (x : Random) : Z :=
  Double.fit (mantissa x * 5) / 2 ^ exponent x + 1.

Module Live.

(** How the calls of one invocation end: the select of [getUser], the
    insert of [createUser] and the update of [updatePoints] with an error,
    the [fetch] of [tgSendMessage] with a rejection. *)
Record Faults := {
  selectError : bool;
  insertError : bool;
  updateError : bool;
  fetchRejects : bool
}.

Definition noFaults : Faults :=
  {| selectError := false; insertError := false; updateError := false;
     fetchRejects := false |}.

(** What one invocation takes from its surroundings. *)
Record Inputs := {
  date : string;                       (* [new Date().toISOString()] *)
  drawn : Random;                      (* [Math.random()] *)
  faults : Faults
}.

(** [getUser]: [null] on an error, also when the row exists. *)
Definition getUser (f : Faults) (telegramId : Z) (t : gmap string UserRow)
  : option UserRow :=
  if selectError f then None else Users.select (Js.String_ telegramId) t.

(** [createUser]: [null] and no row on an error. *)
Definition createUser (f : Faults) (date : string) (telegramId : Z)
    (t : gmap string UserRow) : option UserRow * gmap string UserRow :=
  if insertError f then (None, t)
  else Users.insert {| telegram_id := Js.String_ telegramId; points := 0;
                       created_at := date |} t.

Definition ensureUser (f : Faults) (date : string) (telegramId : Z)
    (t : gmap string UserRow) : option UserRow * gmap string UserRow :=
  match getUser f telegramId t with
  | Some user => (Some user, t)
  | None => createUser f date telegramId t
  end.

(** [updatePoints]: an error of the update is logged and [newPts] is
    returned all the same. *)
Definition updatePoints (f : Faults) (telegramId delta : Z) (t : gmap string UserRow)
  : Z * gmap string UserRow :=
  let user := getUser f telegramId t in
  let current := pointsOr0 user in
  let newPts := Double.add current delta in
  (newPts,
   if updateError f then t else Users.update_points newPts (Js.String_ telegramId) t).

(** [await tgSendMessage(chatId, text); return NextResponse.json({ ok: true })]
    under the [try] of the handler: a [fetch] that rejects is caught, the
    answer is [{ ok: false }] with status 200, and what was written before
    stays written. *)
Definition reply (f : Faults) (chatId : Z) (text : string) (w : World)
  : Response * World :=
  if fetchRejects f then (json false None 200, w)
  else (json true None 200, said w chatId text).

Definition setUsers (w : World) (t : gmap string UserRow) : World :=
  {| users := t; pendingTasks := pendingTasks w; outbox := outbox w |}.

Definition setPending (w : World) (p : gmap string PendingTask) : World :=
  {| users := users w; pendingTasks := p; outbox := outbox w |}.

Definition POST (env : Env) (inp : Inputs) (request : Request) (w : World)
  : Response * World :=
  let f := faults inp in
  if negb (headerIs (secretHeader request) (TELEGRAM_WEBHOOK_SECRET env)) then
    (json false (Some "forbidden") 403, w)
  else
  match message (body request) with
  | None => (json true None 200, w)
  | Some message =>
  let chatId := chat_id message in
  let text := Js.trim (default "" (text message)) in
  if (chatId =? 0)%Z then (json true None 200, w) else
  let key := Js.String_ chatId in
  let pending := pendingTasks w !! key in
  if isGuess pending then
    match Js.parseInt text with
    | Some guess =>
        if isNumber guess pending then
          let '(total, t) := updatePoints f chatId 2 (users w) in
          let w1 := setPending (setUsers w t) (delete key (pendingTasks w)) in
          reply f chatId (correctGuess total) w1
        else reply f chatId wrongGuess w
    | None => reply f chatId guidance w
    end
  else if Js.startsWith text "/start" then
    let '(user, t) := ensureUser f (date inp) chatId (users w) in
    reply f chatId (welcome (pointsOr0 user)) (setUsers w t)
  else if Js.startsWith text "/points" then
    let '(user, t) := ensureUser f (date inp) chatId (users w) in
    reply f chatId ("You have " ++ Js.String_ (pointsOr0 user) ++ " points.") (setUsers w t)
  else if Js.startsWith text "/click" then
    let '(total, t) := updatePoints f chatId 1 (users w) in
    reply f chatId (clicked total) (setUsers w t)
  else if Js.startsWith text "/video" then
    let w1 := setPending w (<[key := {| type := Video; number := None |}]> (pendingTasks w)) in
    reply f chatId
      (watchVideo (orDefault (DRAWCOIN_VIDEO_URL env)
                     "https://www.youtube.com/watch?v=dQw4w9WgXcQ")) w1
  else if Js.startsWith text "/ad" then
    let w1 := setPending w (<[key := {| type := Ad; number := None |}]> (pendingTasks w)) in
    reply f chatId (visitAd (orDefault (DRAWCOIN_AD_URL env) "https://example.com/ad")) w1
  else if Js.startsWith text "/done video" || Js.startsWith text "/done ad" then
    let doneType := if Js.includes text "video" then Video else Ad in
    let current := pendingTasks w !! key in
    if hasType current doneType then
      let pts := match doneType with Video => 5 | _ => 3 end in
      let '(total, t) := updatePoints f chatId pts (users w) in
      let w1 := setPending (setUsers w t) (delete key (pendingTasks w)) in
      reply f chatId (earned pts total) w1
    else reply f chatId (noPending doneType) w
  else if Js.startsWith text "/guess" then
    let num := drawTarget (drawn inp) in
    let w1 := setPending w (<[key := {| type := Guess; number := Some num |}]>
                              (pendingTasks w)) in
    reply f chatId "Guess a number between 1 and 5. Reply with your guess." w1
  else reply f chatId unknownCommand w
  end.

Definition handle (env : Env) (w : World) (ev : Inputs * Request) : World :=
  (POST env ev.1 ev.2 w).2.

Definition run (env : Env) (evs : list (Inputs * Request)) (w : World) : World :=
  fold_left (handle env) evs w.

(** An invocation in which no store call ends in an error. *)
Definition storeAnswers (f : Faults) : Prop :=
  selectError f = false ∧ insertError f = false ∧ updateError f = false.

End Live.

(** Inputs for [Live]: [Math.random()] returning 0.6, the double
    5404319552844595 / 2^53, and returning 0. *)
Definition zeroPointSix : Random := {| mantissa := 5404319552844595; exponent := 53 |}.

Definition liveInputs (x : Random) (f : Live.Faults) : Live.Inputs :=
  {| Live.date := "2025-01-01T00:00:00.000Z"; Live.drawn := x; Live.faults := f |}.

(** An invocation in which every store call answers and the [fetch]
    resolves. *)
Definition quiet (f : Live.Faults) : Prop :=
  Live.selectError f = false ∧ Live.insertError f = false ∧
  Live.updateError f = false ∧ Live.fetchRejects f = false.

(** The balance of the identity leaves room for [room] more points before
    the doubles stop being exact. *)
Definition exactFor (room : Z) (w : World) (chatId : Z) : Prop :=
  - 2 ^ 53 < balance w chatId ∧ balance w chatId + room < 2 ^ 53.

(** The inputs of the handler without failures that draw the same target:
    the time of [inp], and a random value whose exact product by 5 has the
    floor [drawTarget (Live.drawn inp) - 1]. *)
Definition ambOf (inp : Live.Inputs) : Ambient :=
  {| now := Live.date inp;
     random := Qmake (drawTarget (Live.drawn inp) - 1) 5 |}.


(** A row is kept, with its [telegram_id] and [created_at]. *)
Definition rowsKept (t t' : gmap string UserRow) : Prop :=
  ∀ k row, t !! k = Some row →
    ∃ row', t' !! k = Some row' ∧
            telegram_id row' = telegram_id row ∧ created_at row' = created_at row.

(** [handleSubmit] of the dashboard with the outcome of its query:
    [error || !data] holds when the query ends in an error and when no row
    matches. *)
Definition handleSubmitLive (queryError : bool) (table : gmap string UserRow)
    (s : Dashboard.State) : Dashboard.State :=
  match Dashboard.telegramId s with
  | EmptyString =>
      {| Dashboard.telegramId := Dashboard.telegramId s;
         Dashboard.loading := Dashboard.loading s;
         Dashboard.points := None;
         Dashboard.error := Some "Please enter your Telegram ID" |}
  | _ =>
      match (if queryError then None else Users.select (Dashboard.telegramId s) table) with
      | None =>
          {| Dashboard.telegramId := Dashboard.telegramId s;
             Dashboard.loading := false;
             Dashboard.points := None;
             Dashboard.error := Some "User not found or database error" |}
      | Some data =>
          {| Dashboard.telegramId := Dashboard.telegramId s;
             Dashboard.loading := false;
             Dashboard.points := Some (dataPoints data);
             Dashboard.error := None |}
      end
  end.

(** One query of a concurrent call of [updatePoints], with its outcome. *)
Definition stepCallLive (f : Live.Faults) (c : Call) (t : gmap string UserRow)
  : Call * gmap string UserRow :=
  match c with
  | AtSelect telegramId delta =>
      let user := Live.getUser f telegramId t in
      (AtUpdate telegramId (Double.add (pointsOr0 user) delta), t)
  | AtUpdate telegramId newPts =>
      (Returned newPts,
       if Live.updateError f then t
       else Users.update_points newPts (Js.String_ telegramId) t)
  | Returned newPts => (Returned newPts, t)
  end.

(** A schedule names, step by step, the call whose next query the store
    answers, and how the query ends. *)
Fixpoint runScheduleLive (sched : list (nat * Live.Faults)) (calls : list Call)
    (t : gmap string UserRow) : list Call * gmap string UserRow :=
  match sched with
  | [] => (calls, t)
  | (i, f) :: sched' =>
      match calls !! i with
      | Some c =>
          let '(c', t') := stepCallLive f c t in
          runScheduleLive sched' (<[i := c']> calls) t'
      | None => runScheduleLive sched' calls t
      end
  end.

(** * Properties *)

(** ** The string helpers on sample texts *)

Example parseInt_samples :
  Js.parseInt "3" = Some 3 ∧ Js.parseInt "3.5" = Some 3 ∧ Js.parseInt "abc" = None ∧
  Js.parseInt " -42x" = Some (-42) ∧ Js.parseInt "+-1" = None ∧
  Js.parseInt "/click" = None ∧ Js.parseInt "" = None ∧ Js.parseInt "007" = Some 7.
Proof. repeat split. Qed.

Example trim_samples :
  Js.trim "  /done ad  " = "/done ad" ∧ Js.trim (" a b " ++ Js.nl) = "a b" ∧ Js.trim "   " = "".
Proof. repeat split. Qed.

Example String_samples :
  Js.String_ 42 = "42" ∧ Js.String_ 0 = "0" ∧ Js.String_ (-7) = "-7".
Proof. repeat split. Qed.

Example includes_samples :
  Js.includes "/done ad video" "video" = true ∧ Js.includes "/done ad" "video" = false ∧
  Js.startsWith "/adventure" "/ad" = true ∧ Js.startsWith "/a" "/ad" = false.
Proof. repeat split. Qed.

(** ** Keys: the decimal rendering of an identity is injective *)

Lemma to_int_nonnil z :
  Z.to_int z ≠ Decimal.Pos Decimal.Nil ∧ Z.to_int z ≠ Decimal.Neg Decimal.Nil.
Proof.
  destruct z as [|p|p]; simpl; split; try discriminate;
    intros [= H]; by apply (DecimalPos.Unsigned.to_uint_nonnil p).
Qed.

Lemma String_inj a b : Js.String_ a = Js.String_ b → a = b.
Proof.
  unfold Js.String_. intros H.
  apply (f_equal NilZero.int_of_string) in H.
  destruct (to_int_nonnil a), (to_int_nonnil b).
  rewrite !NilZero.isi in H by assumption.
  injection H as H.
  rewrite <- (DecimalZ.of_to a), <- (DecimalZ.of_to b). by rewrite H.
Qed.

(** ** What one invocation can change *)

Lemma POST_step env amb request w :
  let w' := (POST env amb request w).2 in
  match eventUser request with
  | None => users w' = users w ∧ pendingTasks w' = pendingTasks w
  | Some chatId =>
      usersStep (Js.String_ chatId) (users w) (users w') ∧
      pendingStep (random amb) (Js.String_ chatId) (pendingTasks w) (pendingTasks w')
  end.
Proof.
  unfold POST, eventUser.
  destruct (negb _); [ destruct (message _); simpl; split; constructor |].
  destruct (message (body request)) as [m|]; simpl; [| done].
  destruct (chat_id m =? 0)%Z; [ split; constructor |].
  unfold bind at 1, getPending at 1.
  repeat case_match; unfold ensureUser, updatePoints, getUser, createUser, withUsers,
    withPending, tgSendMessage, getPending, bind, ret, Users.select, Users.insert;
    simpl; repeat case_match; simplify_eq/=.
  all: split.
  all: try (by constructor).
  all: by eapply users_updated; repeat constructor.
Qed.

Lemma usersStep_other key t t' k :
  usersStep key t t' → k ≠ key → t' !! k = t !! k.
Proof.
  intros [| row Hnone Hrow | d Hd] Hk; [done | |].
  - by rewrite lookup_insert_ne.
  - unfold Users.update_points. by rewrite lookup_alter_ne.
Qed.

Lemma pendingStep_other rnd key p p' k :
  pendingStep rnd key p p' → k ≠ key → p' !! k = p !! k.
Proof.
  intros [| | ty Hty |] Hk; [done | | |].
  - by rewrite lookup_delete_ne.
  - by rewrite lookup_insert_ne.
  - by rewrite lookup_insert_ne.
Qed.





(** C10. Handling one inbound event leaves the ledger row and the pending
    task of every identity other than the sender's as they were; a request
    that carries no message changes them for nobody. *)
Theorem other_users_untouched env amb request w (B : Z) :
  eventUser request ≠ Some B →
  let w' := handle env w (amb, request) in
  users w' !! Js.String_ B = users w !! Js.String_ B ∧
  balance w' B = balance w B ∧
  pendingOf w' B = pendingOf w B.
Proof.
  intros Hne w'. subst w'. unfold handle, balance, pendingOf. simpl.
  pose proof (POST_step env amb request w) as H. simpl in H.
  destruct (eventUser request) as [A|].
  - destruct H as [Hu Hp].
    assert (Js.String_ B ≠ Js.String_ A) as Hk.
    { intros Heq. apply String_inj in Heq. congruence. }
    rewrite (usersStep_other _ _ _ _ Hu Hk), (pendingStep_other _ _ _ _ _ Hp Hk). done.
  - destruct H as [-> ->]. done.
Qed.



(** ** The branches of the handler *)

Lemma startsWith_app text p :
  Js.startsWith text p = true → ∃ rest, text = p ++ rest.
Proof.
  revert text. induction p as [|a p IH]; intros [|b s]; simpl; try done.
  - by exists "".
  - by exists (String b s).
  - destruct (Ascii.eqb_spec a b) as [->|]; [| done].
    intros (rest & ->)%IH. by exists rest.
Qed.

Lemma parseInt_slash text :
  Js.startsWith text "/" = true → Js.parseInt text = None.
Proof. by intros (rest & ->)%startsWith_app. Qed.

Lemma delivers_message env request chatId raw :
  delivers env request chatId raw →
  ∃ m, negb (headerIs (secretHeader request) (TELEGRAM_WEBHOOK_SECRET env)) = false ∧
       message (body request) = Some m ∧ chat_id m = chatId ∧ default "" (text m) = raw.
Proof.
  unfold delivers, eventUser, rawText. intros (-> & Hu & Hr).
  destruct (message (body request)) as [m|]; [| done].
  simpl in *. exists m. by simplify_eq.
Qed.

(** Opens [POST] on a delivered message of a chat other than 0, up to the
    test of the guess mode. *)
Ltac enter Hd Hz :=
  let m := fresh "m" in
  let Hh := fresh in let Hm := fresh in let Hc := fresh in let Ht := fresh in
  destruct (delivers_message _ _ _ _ Hd) as (m & Hh & Hm & Hc & Ht);
  unfold handle, POST; cbn [fst snd]; rewrite Hh, Hm, Hc, Ht;
  rewrite (proj2 (Z.eqb_neq _ 0) Hz);
  unfold bind at 1, getPending at 1; fold (pendingOf);
  clear Hh Hm Hc Ht.

Ltac steps :=
  unfold ensureUser, updatePoints, getUser, createUser, withUsers, withPending,
    tgSendMessage, getPending, said, bind, ret, Users.select, Users.insert;
  cbn [fst snd users pendingTasks outbox].

Lemma POST_guess_nan env amb request chatId raw w :
  delivers env request chatId raw → chatId ≠ 0 →
  isGuess (pendingOf w chatId) = true →
  Js.parseInt (Js.trim raw) = None →
  POST env amb request w = (json true None 200, said w chatId guidance).
Proof.
  intros Hd Hz Hg Hn. enter Hd Hz.
  change (pendingTasks w !! Js.String_ chatId) with (pendingOf w chatId).
  by rewrite Hg, Hn.
Qed.

Lemma POST_guess_wrong env amb request chatId raw w n :
  delivers env request chatId raw → chatId ≠ 0 →
  isGuess (pendingOf w chatId) = true →
  Js.parseInt (Js.trim raw) = Some n →
  isNumber n (pendingOf w chatId) = false →
  POST env amb request w = (json true None 200, said w chatId wrongGuess).
Proof.
  intros Hd Hz Hg Hn Hw. enter Hd Hz.
  change (pendingTasks w !! Js.String_ chatId) with (pendingOf w chatId).
  by rewrite Hg, Hn, Hw.
Qed.

Lemma POST_guess_correct env amb request chatId raw w n :
  delivers env request chatId raw → chatId ≠ 0 →
  isGuess (pendingOf w chatId) = true →
  Js.parseInt (Js.trim raw) = Some n →
  isNumber n (pendingOf w chatId) = true →
  POST env amb request w =
    (json true None 200,
     {| users := Users.update_points (balance w chatId + 2) (Js.String_ chatId) (users w);
        pendingTasks := delete (Js.String_ chatId) (pendingTasks w);
        outbox := outbox w ++ [(chatId, correctGuess (balance w chatId + 2))] |}).
Proof.
  intros Hd Hz Hg Hn Hw. enter Hd Hz.
  change (pendingTasks w !! Js.String_ chatId) with (pendingOf w chatId).
  by rewrite Hg, Hn, Hw.
Qed.

Lemma startsWith_disagree text p q :
  Js.startsWith text p = true → disagree p q = true → Js.startsWith text q = false.
Proof.
  revert text q. induction p as [|a p IH]; intros [|c s] [|b q]; simpl; try done.
  destruct (Ascii.eqb_spec a c) as [->|]; [| done].
  destruct (Ascii.eqb_spec c b) as [->|Hcb].
  - rewrite Ascii.eqb_refl. apply IH.
  - intros _ _. by destruct (Ascii.eqb_spec b c) as [->|].
Qed.

Ltac skip H q :=
  rewrite (startsWith_disagree _ _ q H eq_refl).

Lemma POST_start_points env amb request chatId raw w :
  delivers env request chatId raw → chatId ≠ 0 →
  isGuess (pendingOf w chatId) = false →
  Js.startsWith (Js.trim raw) "/start" || Js.startsWith (Js.trim raw) "/points" = true →
  POST env amb request w =
    (json true None 200,
     {| users := match users w !! Js.String_ chatId with
                 | Some _ => users w
                 | None => <[Js.String_ chatId := newRow amb chatId]> (users w)
                 end;
        pendingTasks := pendingTasks w;
        outbox := outbox w ++ [(chatId, balanceReply (Js.trim raw) (balance w chatId))] |}).
Proof.
  intros Hd Hz Hg Hs. enter Hd Hz.
  change (pendingTasks w !! Js.String_ chatId) with (pendingOf w chatId).
  rewrite Hg. unfold balanceReply, balance.
  destruct (Js.startsWith (Js.trim raw) "/start") eqn:Hstart; simpl in Hs;
    [| rewrite Hs]; steps;
    destruct (users w !! Js.String_ chatId) as [row|] eqn:Hrow;
    cbn [fst snd users pendingTasks outbox telegram_id]; rewrite ?Hrow; by destruct w.
Qed.

Lemma POST_click env amb request chatId raw w :
  delivers env request chatId raw → chatId ≠ 0 →
  isGuess (pendingOf w chatId) = false →
  Js.startsWith (Js.trim raw) "/click" = true →
  POST env amb request w =
    (json true None 200,
     {| users := Users.update_points (balance w chatId + 1) (Js.String_ chatId) (users w);
        pendingTasks := pendingTasks w;
        outbox := outbox w ++ [(chatId, clicked (balance w chatId + 1))] |}).
Proof.
  intros Hd Hz Hg Hs. enter Hd Hz.
  change (pendingTasks w !! Js.String_ chatId) with (pendingOf w chatId).
  rewrite Hg. skip Hs "/start". skip Hs "/points". by rewrite Hs.
Qed.


Lemma done_not_earlier text :
  Js.startsWith text "/done video" || Js.startsWith text "/done ad" = true →
  Js.startsWith text "/start" = false ∧ Js.startsWith text "/points" = false ∧
  Js.startsWith text "/click" = false ∧ Js.startsWith text "/video" = false ∧
  Js.startsWith text "/ad" = false.
Proof.
  intros [H|H]%orb_true_iff; repeat split;
    by apply (startsWith_disagree _ _ _ H).
Qed.


Lemma POST_done_match env amb request chatId raw w :
  delivers env request chatId raw → chatId ≠ 0 →
  isGuess (pendingOf w chatId) = false →
  Js.startsWith (Js.trim raw) "/done video" || Js.startsWith (Js.trim raw) "/done ad" = true →
  let doneType := if Js.includes (Js.trim raw) "video" then Video else Ad in
  let pts := match doneType with Video => 5 | _ => 3 end in
  hasType (pendingOf w chatId) doneType = true →
  POST env amb request w =
    (json true None 200,
     {| users := Users.update_points (balance w chatId + pts) (Js.String_ chatId) (users w);
        pendingTasks := delete (Js.String_ chatId) (pendingTasks w);
        outbox := outbox w ++
          [(chatId, "Thanks! You earned " ++ Js.String_ pts ++ " points." ++ Js.nl ++
                    "Total points: " ++ Js.String_ (balance w chatId + pts) ++ ".")] |}).
Proof.
  intros Hd Hz Hg Hs doneType pts Hty. subst doneType pts. enter Hd Hz.
  change (pendingTasks w !! Js.String_ chatId) with (pendingOf w chatId).
  destruct (done_not_earlier _ Hs) as (-> & -> & -> & -> & ->).
  rewrite Hg, Hs. steps.
  change (pendingTasks w !! Js.String_ chatId) with (pendingOf w chatId).
  by rewrite Hty.
Qed.


(** ** The guess mode *)

Lemma isGuess_task (o : option PendingTask) r :
  o = Some {| type := Guess; number := Some r |} →
  isGuess o = true ∧ ∀ n, isNumber n o = (n =? r)%Z.
Proof. by intros ->. Qed.

(** Resolution of a pending guess by a text that [parseInt] reads as [n]:
    on a match the task is cleared, the reply reports the old balance plus
    2, and the row of the chat, when there is one, gets that many points; a
    miss changes nothing but the outbox. *)
Lemma guess_resolution env amb request chatId raw w r n :
  delivers env request chatId raw → chatId ≠ 0 →
  pendingOf w chatId = Some {| type := Guess; number := Some r |} →
  Js.parseInt (Js.trim raw) = Some n →
  let w' := handle env w (amb, request) in
  (n = r →
     pendingOf w' chatId = None ∧
     outbox w' = (outbox w ++ [(chatId, correctGuess (balance w chatId + 2))])%list ∧
     (is_Some (users w !! Js.String_ chatId) → balance w' chatId = balance w chatId + 2) ∧
     (users w !! Js.String_ chatId = None → users w' = users w)) ∧
  (n ≠ r →
     users w' = users w ∧ pendingTasks w' = pendingTasks w ∧
     outbox w' = (outbox w ++ [(chatId, wrongGuess)])%list).
Proof.
  intros Hd Hz Hp Hn w'. subst w'. unfold handle. cbn [fst snd].
  destruct (isGuess_task _ _ Hp) as [Hg Hnum]. split.
  - intros ->.
    rewrite (POST_guess_correct _ _ _ _ _ _ r Hd Hz Hg Hn) by (rewrite Hnum; lia).
    unfold pendingOf, balance, Users.update_points. cbn [snd users pendingTasks outbox].
    repeat split.
    + apply lookup_delete_eq.
    + intros [row Hrow]. by rewrite lookup_alter_eq, Hrow.
    + intros Hnone. apply map_eq. intros k.
      destruct (decide (Js.String_ chatId = k)) as [<-|Hk].
      * by rewrite lookup_alter_eq, Hnone.
      * by rewrite lookup_alter_ne.
  - intros Hne.
    rewrite (POST_guess_wrong _ _ _ _ _ _ n Hd Hz Hg Hn) by (rewrite Hnum; lia).
    done.
Qed.

(** While a guess task is pending every text is answered by the guess
    mode alone: the one reply is the guidance, the wrong-guess or the
    correct-guess message. A text in which [parseInt] finds no number, which
    is the case of every text that starts with a slash and so of every
    command word, gets the guidance reply and leaves the table, hence the
    balance, and the pending tasks as they were. *)
Theorem guess_precedence env amb request chatId raw w :
  delivers env request chatId raw → chatId ≠ 0 →
  isGuess (pendingOf w chatId) = true →
  let w' := handle env w (amb, request) in
  (∃ reply, outbox w' = (outbox w ++ [(chatId, reply)])%list ∧
     (reply = guidance ∨ reply = wrongGuess ∨
      reply = correctGuess (balance w chatId + 2))) ∧
  (Js.parseInt (Js.trim raw) = None ∨ Js.startsWith (Js.trim raw) "/" = true →
     users w' = users w ∧ pendingTasks w' = pendingTasks w ∧
     outbox w' = (outbox w ++ [(chatId, guidance)])%list).
Proof.
  intros Hd Hz Hg w'. subst w'. unfold handle. cbn [fst snd]. split.
  - destruct (Js.parseInt (Js.trim raw)) as [n|] eqn:Hn.
    + destruct (isNumber n (pendingOf w chatId)) eqn:Hnum.
      * rewrite (POST_guess_correct _ _ _ _ _ _ n Hd Hz Hg Hn Hnum). eauto.
      * rewrite (POST_guess_wrong _ _ _ _ _ _ n Hd Hz Hg Hn Hnum). eexists. split; [done | auto].
    + rewrite (POST_guess_nan _ _ _ _ _ _ Hd Hz Hg Hn). eexists. split; [done | auto].
  - intros Hnan.
    assert (Js.parseInt (Js.trim raw) = None) as Hn.
    { destruct Hnan as [|Hs]; [done | by apply parseInt_slash]. }
    by rewrite (POST_guess_nan _ _ _ _ _ _ Hd Hz Hg Hn).
Qed.

Lemma delivers_textFrom chatId t :
  delivers Sample.env (Sample.textFrom chatId t) chatId t.
Proof. done. Qed.

Lemma guess_precedence_witness :
  let w := run Sample.env [(Sample.amb, Sample.textFrom 42 "/guess")] Sample.fresh in
  let w' := handle Sample.env w (Sample.amb, Sample.textFrom 42 "/click") in
  users w' = users w ∧ pendingTasks w' = pendingTasks w ∧
  outbox w' = (outbox w ++ [(42, guidance)])%list.
Proof.
  apply (guess_precedence Sample.env Sample.amb (Sample.textFrom 42 "/click") 42 "/click").
  - apply delivers_textFrom.
  - lia.
  - reflexivity.
  - right. reflexivity.
Defined.

(** C6, at two texts that are not numbers, sent while the target 3 is
    pending: [parseInt] reads the digit they start with, so [5 apples] is
    answered as a wrong guess and not with the guidance, and [3abc] as the
    correct guess: two points are added and the task is deleted. A command
    word such as [/click], in which [parseInt] finds no number, does get
    the guidance and changes nothing. *)
Theorem nonnumeric_text_taken_as_guess :
  let w := run Sample.env [(Sample.amb, Sample.textFrom 42 "/start");
                           (Sample.amb, Sample.textFrom 42 "/guess")] Sample.fresh in
  let w1 := handle Sample.env w (Sample.amb, Sample.textFrom 42 "5 apples") in
  let w2 := handle Sample.env w (Sample.amb, Sample.textFrom 42 "3abc") in
  let w3 := handle Sample.env w (Sample.amb, Sample.textFrom 42 "/click") in
  pendingOf w 42 = Some {| type := Guess; number := Some 3 |} ∧
  balance w 42 = 0 ∧
  Js.parseInt "5 apples" = Some 5 ∧
  outbox w1 = (outbox w ++ [(42, wrongGuess)])%list ∧
  Js.parseInt "3abc" = Some 3 ∧
  outbox w2 = (outbox w ++ [(42, correctGuess 2)])%list ∧
  balance w2 42 = 2 ∧
  pendingOf w2 42 = None ∧
  outbox w3 = (outbox w ++ [(42, guidance)])%list ∧
  users w3 = users w ∧ pendingTasks w3 = pendingTasks w.
Proof. vm_compute. repeat split. Qed.

(** ** Completion of a video or ad task *)




(** ** Reading the balance *)





(** ** Starting a guess *)

Lemma target_in_range (x : Q) :
  (0 <= x)%Q → (x < 1)%Q → 1 <= Js.floor (x * 5) + 1 <= 5.
Proof.
  destruct x as [n d]. unfold Js.floor, Qfloor, Qle, Qlt, Qmult. simpl.
  intros H0 H1.
  assert (0 <= n * 5 / Z.pos (d * 1) < 5); [| lia].
  split.
  - apply Z.div_pos; lia.
  - apply Z.div_lt_upper_bound; lia.
Qed.

Lemma targetsInRange_handle env w amb request :
  (0 <= random amb)%Q → (random amb < 1)%Q →
  targetsInRange w → targetsInRange (handle env w (amb, request)).
Proof.
  intros H0 H1 Hw k p. unfold handle. cbn [fst snd].
  pose proof (POST_step env amb request w) as H. simpl in H.
  destruct (eventUser request) as [chatId|]; [| destruct H as [_ ->]; apply Hw].
  destruct H as [_ [| | ty Hty |]].
  - apply Hw.
  - intros Hk. apply lookup_delete_Some in Hk as [_ Hk]. by apply Hw in Hk.
  - intros Hk. apply lookup_insert_Some in Hk as [[_ <-]|[_ Hk]]; [done | by apply Hw in Hk].
  - intros Hk Hty. apply lookup_insert_Some in Hk as [[_ <-]|[_ Hk]].
    + eexists. split; [done |]. by apply target_in_range.
    + by apply (Hw k).
Qed.

Lemma targetsInRange_run env evs w :
  Forall (λ ev : Ambient * Request, (0 <= random ev.1)%Q ∧ (random ev.1 < 1)%Q) evs →
  targetsInRange w → targetsInRange (run env evs w).
Proof.
  intros Hall. revert w. induction Hall as [|[amb request] evs [H0 H1] _ IH]; intros w Hw.
  - done.
  - apply IH. by apply targetsInRange_handle.
Qed.

Lemma targetsInRange_fresh : targetsInRange Sample.fresh.
Proof. intros k p Hk. cbn [Sample.fresh pendingTasks] in Hk. by rewrite lookup_empty in Hk. Qed.

(** ** Point-mutating commands and the ledger row *)

Lemma update_points_absent p k (t : gmap string UserRow) :
  t !! k = None → Users.update_points p k t = t.
Proof.
  intros Hnone. apply map_eq. intros j. unfold Users.update_points.
  destruct (decide (k = j)) as [<-|Hne].
  - by rewrite lookup_alter_eq, Hnone.
  - by rewrite lookup_alter_ne.
Qed.

Lemma update_points_present p k (t : gmap string UserRow) :
  is_Some (t !! k) → pointsOr0 (Users.update_points p k t !! k) = p.
Proof. intros [row Hrow]. unfold Users.update_points. by rewrite lookup_alter_eq, Hrow. Qed.

(** [updatePoints] returns the balance it read plus the delta; the table
    keeps the sum when the identity has a row and is left as it was when it
    has none. *)
Lemma updatePoints_spec telegramId delta w :
  let '(newPts, w') := updatePoints telegramId delta w in
  newPts = balance w telegramId + delta ∧
  pendingTasks w' = pendingTasks w ∧ outbox w' = outbox w ∧
  (is_Some (users w !! Js.String_ telegramId) → balance w' telegramId = newPts) ∧
  (users w !! Js.String_ telegramId = None → users w' = users w).
Proof.
  unfold updatePoints. steps. unfold balance. cbn [users].
  repeat split.
  - apply update_points_present.
  - apply update_points_absent.
Qed.

(** [/click] on a chat with a ledger row adds one point to it. *)
Lemma click_with_row env amb request chatId raw w :
  delivers env request chatId raw → chatId ≠ 0 →
  isGuess (pendingOf w chatId) = false →
  Js.startsWith (Js.trim raw) "/click" = true →
  is_Some (users w !! Js.String_ chatId) →
  balance (handle env w (amb, request)) chatId = balance w chatId + 1.
Proof.
  intros Hd Hz Hg Hs Hrow. unfold handle. cbn [fst snd].
  rewrite (POST_click _ _ _ _ _ _ Hd Hz Hg Hs). unfold balance at 1. cbn [snd users].
  by apply update_points_present.
Qed.

(** [/click] on a chat without a ledger row reports a total of 1 and leaves
    the table without a row for it. *)
Lemma click_without_row env amb request chatId raw w :
  delivers env request chatId raw → chatId ≠ 0 →
  isGuess (pendingOf w chatId) = false →
  Js.startsWith (Js.trim raw) "/click" = true →
  users w !! Js.String_ chatId = None →
  let w' := handle env w (amb, request) in
  users w' = users w ∧
  outbox w' = (outbox w ++ [(chatId, clicked 1)])%list.
Proof.
  intros Hd Hz Hg Hs Hrow w'. subst w'. unfold handle. cbn [fst snd].
  rewrite (POST_click _ _ _ _ _ _ Hd Hz Hg Hs). cbn [snd users outbox].
  unfold balance. rewrite Hrow. split; [by apply update_points_absent | done].
Qed.

(** [/start] and [/points], which go through [ensureUser], do create the
    row. *)
Lemma start_creates_row env amb request chatId raw w :
  delivers env request chatId raw → chatId ≠ 0 →
  isGuess (pendingOf w chatId) = false →
  Js.startsWith (Js.trim raw) "/start" || Js.startsWith (Js.trim raw) "/points" = true →
  users w !! Js.String_ chatId = None →
  users (handle env w (amb, request)) !! Js.String_ chatId = Some (newRow amb chatId).
Proof.
  intros Hd Hz Hg Hs Hrow. unfold handle. cbn [fst snd].
  rewrite (POST_start_points _ _ _ _ _ _ Hd Hz Hg Hs). cbn [snd users].
  by rewrite Hrow, lookup_insert_eq.
Qed.

(** C2, at a first-ever [/click]: the chat 42 has no ledger row, the reply
    announces a total of 1, and the table still has no row for 42. *)
Theorem first_click_persists_nothing :
  let w' := handle Sample.env Sample.fresh (Sample.amb, Sample.textFrom 42 "/click") in
  users Sample.fresh !! Js.String_ 42 = None ∧
  outbox w' = [(42, clicked 1)] ∧
  users w' !! Js.String_ 42 = None.
Proof. vm_compute. repeat split. Qed.

(** C5, at a correct guess by a chat without a ledger row: after [/guess]
    picked the target 3 the text [3] clears the task and the reply
    announces a total of 2, but no row is written and the balance read
    back is 0. *)
Theorem correct_guess_without_row :
  let w := run Sample.env [(Sample.amb, Sample.textFrom 42 "/guess")] Sample.fresh in
  let w' := handle Sample.env w (Sample.amb, Sample.textFrom 42 "3") in
  pendingOf w 42 = Some {| type := Guess; number := Some 3 |} ∧
  pendingOf w' 42 = None ∧
  outbox w' = (outbox w ++ [(42, correctGuess 2)])%list ∧
  users w' !! Js.String_ 42 = None ∧
  balance w' 42 = 0.
Proof. vm_compute. repeat split. Qed.

(** C3, at the text [3.5] sent while the target 3 is pending: [parseInt]
    reads it as 3, so it is taken as a guess, and a correct one: two points
    are added, the task is cleared and the reply is the success message. *)
Theorem malformed_number_taken_as_guess :
  let w := run Sample.env [(Sample.amb, Sample.textFrom 42 "/start");
                           (Sample.amb, Sample.textFrom 42 "/guess")] Sample.fresh in
  let w' := handle Sample.env w (Sample.amb, Sample.textFrom 42 "3.5") in
  Js.parseInt "3.5" = Some 3 ∧
  pendingOf w 42 = Some {| type := Guess; number := Some 3 |} ∧
  balance w 42 = 0 ∧
  pendingOf w' 42 = None ∧
  balance w' 42 = 2 ∧
  outbox w' = (outbox w ++ [(42, correctGuess 2)])%list.
Proof. vm_compute. repeat split. Qed.

(** A digit followed by anything that does not start with a digit is read
    by [parseInt] as that digit. *)
Lemma parseInt_digit_then_rest c d tail :
  Js.digitValue c = Some d →
  (∀ c' t, tail = String c' t → Js.digitValue c' = None) →
  Js.parseInt (String c tail) = Some d.
Proof.
  intros Hc Htail. unfold Js.parseInt.
  assert (Js.isWhiteSpace c = false ∧ c ≠ "-"%char ∧ c ≠ "+"%char) as (Hws & Hm & Hp).
  { unfold Js.digitValue in Hc. unfold Js.isWhiteSpace.
    destruct ((48 <=? N_of_ascii c)%N && (N_of_ascii c <=? 57)%N) eqn:Hr; [| done].
    apply andb_true_iff in Hr as [Hlo Hhi].
    apply N.leb_le in Hlo, Hhi. repeat split.
    - repeat (apply orb_false_iff; split); try apply andb_false_iff;
        rewrite ?N.leb_gt, ?N.eqb_neq; lia.
    - intros ->. simpl in *. lia.
    - intros ->. simpl in *. lia. }
  cbn [Js.trimStart]. rewrite Hws.
  assert (Js.digitsValue (String c tail) 0 = d) as Hval.
  { cbn [Js.digitsValue]. rewrite Hc.
    destruct tail as [|c' t]; cbn [Js.digitsValue]; [lia |].
    rewrite (Htail c' t eq_refl). lia. }
  destruct c as [[] [] [] [] [] [] [] []]; try done;
    cbv beta iota; rewrite Hc, Hval; f_equal; lia.
Qed.

(** ** Concurrent updates of one balance *)

(** Answering the two queries of a call one after the other is
    [updatePoints]. *)
Lemma stepCall_twice telegramId delta w :
  let '(c1, t1) := stepCall (AtSelect telegramId delta) (users w) in
  let '(c2, t2) := stepCall c1 t1 in
  c2 = Returned (updatePoints telegramId delta w).1 ∧
  t2 = users (updatePoints telegramId delta w).2.
Proof. done. Qed.

Lemma runSchedule_serial_from u k m : ∀ calls t,
  (∀ i, (k ≤ i < k + m)%nat → calls !! i = Some (AtSelect u 1)) →
  is_Some (t !! Js.String_ u) →
  let r := runSchedule (flat_map (λ i, [i; i]) (seq k m)) calls t in
  pointsOr0 (r.2 !! Js.String_ u) = pointsOr0 (t !! Js.String_ u) + Z.of_nat m ∧
  length r.1 = length calls ∧
  (∀ i, (i < k)%nat → r.1 !! i = calls !! i) ∧
  (∀ i, (k ≤ i < k + m)%nat → ∃ n, r.1 !! i = Some (Returned n)).
Proof.
  revert k. induction m as [|m IH]; intros k calls t Hcalls Hrow r.
  - subst r. simpl. repeat split; [lia | intros i Hi; lia].
  - subst r. cbn [seq flat_map app runSchedule].
    assert (k < length calls)%nat as Hlen.
    { eapply lookup_lt_Some, (Hcalls k). lia. }
    rewrite (Hcalls k) by lia. cbn [stepCall].
    rewrite list_lookup_insert_eq by done. cbn [stepCall].
    rewrite list_insert_insert_eq.
    set (t1 := Users.update_points _ _ t).
    set (calls1 := <[k := _]> calls).
    destruct (IH (S k) calls1 t1) as (Hpts & Hl & Hlow & Hhigh).
    + intros i Hi. subst calls1. rewrite list_lookup_insert_ne by lia. apply Hcalls. lia.
    + subst t1. unfold Users.update_points. destruct Hrow as [row Hrow].
      rewrite lookup_alter_eq, Hrow. done.
    + split; [| split; [| split]].
      * rewrite Hpts. subst t1. rewrite update_points_present by done.
        unfold Users.select. lia.
      * rewrite Hl. subst calls1. by rewrite length_insert.
      * intros i Hi. rewrite Hlow by lia. subst calls1.
        by rewrite list_lookup_insert_ne by lia.
      * intros i Hi. destruct (decide (i = k)) as [->|Hne].
        -- rewrite Hlow by lia. subst calls1.
           rewrite list_lookup_insert_eq by done. eauto.
        -- apply Hhigh. lia.
Qed.

(** Calls that run one after the other lose nothing: [n] calls with delta 1
    on an identity that has a row all return and add [n] to its balance. *)
Lemma serial_no_lost_update u n (t : gmap string UserRow) :
  is_Some (t !! Js.String_ u) →
  let r := runSchedule (serial n) (replicate n (AtSelect u 1)) t in
  Forall (λ c, isReturned c = true) r.1 ∧
  pointsOr0 (r.2 !! Js.String_ u) = pointsOr0 (t !! Js.String_ u) + Z.of_nat n.
Proof.
  intros Hrow r. subst r. unfold serial.
  destruct (runSchedule_serial_from u 0 n (replicate n (AtSelect u 1)) t)
    as (Hpts & Hl & _ & Hret); [| done |].
  { intros i Hi. apply lookup_replicate_2. lia. }
  cbn zeta in *. split; [| exact Hpts].
  apply Forall_lookup. intros i c Hc.
  assert (i < n)%nat as Hi.
  { apply lookup_lt_Some in Hc. rewrite Hl, length_replicate in Hc. done. }
  destruct (Hret i) as [m Hm]; [lia |].
  rewrite Hm in Hc. by simplify_eq.
Qed.

(** C1, at two concurrent calls [updatePoints(7, 1)] on a balance of 0: when
    the store answers both selects before either update, both calls return
    1 and the balance ends at 1, one update being lost; the same two calls
    run one after the other end at 2. *)
Theorem lost_update :
  let calls := [AtSelect 7 1; AtSelect 7 1] in
  let racy := runSchedule [0; 1; 0; 1]%nat calls Sample.oneUser in
  let serially := runSchedule (serial 2) calls Sample.oneUser in
  pointsOr0 (Sample.oneUser !! Js.String_ 7) = 0 ∧
  racy.1 = [Returned 1; Returned 1] ∧
  pointsOr0 (racy.2 !! Js.String_ 7) = 1 ∧
  serially.1 = [Returned 1; Returned 2] ∧
  pointsOr0 (serially.2 !! Js.String_ 7) = 2.
Proof. vm_compute. repeat split. Qed.

(** ** Concrete instances of the general statements *)

Lemma other_users_untouched_witness :
  let w := run Sample.env [(Sample.amb, Sample.textFrom 7 "/start");
                           (Sample.amb, Sample.textFrom 7 "/video")] Sample.fresh in
  let w' := handle Sample.env w (Sample.amb, Sample.textFrom 42 "/click") in
  users w' !! Js.String_ 7 = users w !! Js.String_ 7 ∧
  balance w' 7 = balance w 7 ∧
  pendingOf w' 7 = pendingOf w 7.
Proof.
  apply (other_users_untouched Sample.env Sample.amb (Sample.textFrom 42 "/click")).
  simpl. intros [= H].
Defined.


(** * Further properties of the handler *)

(** ** Requests that are not served *)

Lemma POST_forbidden env amb request w :
  secretHeader request ≠ Some (TELEGRAM_WEBHOOK_SECRET env) →
  POST env amb request w = (json false (Some "forbidden") 403, w).
Proof.
  intros Hne. unfold POST.
  destruct (headerIs _ _) eqn:Hh; [| done].
  exfalso. apply Hne. unfold headerIs in Hh.
  destruct (secretHeader request) as [s|]; [| done].
  apply String.eqb_eq in Hh. by subst.
Qed.

Lemma POST_no_chat env amb request w :
  secretHeader request = Some (TELEGRAM_WEBHOOK_SECRET env) →
  eventUser request = None ∨ eventUser request = Some 0 →
  POST env amb request w = (json true None 200, w).
Proof.
  intros Hh Hu. unfold POST, headerIs. rewrite Hh, String.eqb_refl. cbn [negb].
  unfold eventUser in Hu.
  destruct (message (body request)) as [m|]; [| done].
  destruct Hu as [Hu|Hu]; [done |]. simpl in Hu. injection Hu as Hu. by rewrite Hu.
Qed.

(** X1. A request whose secret header is missing or differs from the
    configured secret is answered 403 [forbidden], whatever it carries; the
    table, the pending tasks and the outbox are not touched. *)
Theorem unauthorized_rejected env amb request w :
  secretHeader request ≠ Some (TELEGRAM_WEBHOOK_SECRET env) →
  POST env amb request w = (json false (Some "forbidden") 403, w).
Proof. apply POST_forbidden. Qed.

Lemma unauthorized_rejected_witness :
  POST Sample.env Sample.amb
    {| secretHeader := Some "guess"; body := body (Sample.textFrom 42 "/click") |}
    Sample.fresh
  = (json false (Some "forbidden") 403, Sample.fresh).
Proof.
  apply (unauthorized_rejected Sample.env). simpl. intros [= H].
Defined.

(** X2. An authorised update that carries no message, or a message of the
    chat id 0, is acknowledged with 200 and changes nothing: no row is read
    or written and no reply is sent. *)
Theorem update_without_chat_ignored env amb request w :
  secretHeader request = Some (TELEGRAM_WEBHOOK_SECRET env) →
  eventUser request = None ∨ eventUser request = Some 0 →
  POST env amb request w = (json true None 200, w).
Proof. apply POST_no_chat. Qed.

Lemma update_without_chat_ignored_witness :
  POST Sample.env Sample.amb (Sample.textFrom 0 "/click") Sample.fresh
  = (json true None 200, Sample.fresh).
Proof.
  apply (update_without_chat_ignored Sample.env); [reflexivity | right; reflexivity].
Defined.

(** ** Served messages *)

Lemma POST_serves env amb request chatId raw w :
  delivers env request chatId raw → chatId ≠ 0 →
  ∃ w', POST env amb request w = (json true None 200, w') ∧ serves amb chatId w w'.
Proof.
  intros Hd Hz. enter Hd Hz.
  change (pendingTasks w !! Js.String_ chatId) with (pendingOf w chatId).
  destruct (isGuess (pendingOf w chatId)) eqn:Hg.
  - destruct (Js.parseInt (Js.trim raw)) as [n|];
      [| eexists; split; [done | apply serves_reply]].
    destruct (isNumber n (pendingOf w chatId)) eqn:Hn;
      [| eexists; split; [done | apply serves_reply]].
    destruct (pendingOf w chatId) as [task|] eqn:Hp; [| done].
    steps. eexists. split; [done |]. fold (balance w chatId).
    assert (type task = Guess) as Hty by (by destruct task as [[] ?]).
    replace 2 with (rewardOf (type task)) by (by rewrite Hty).
    by apply serves_reward.
  - repeat case_match; steps; repeat case_match; simplify_eq/=;
      (eexists; split; [done |]); fold (balance w chatId);
      try (by apply (serves_reply amb chatId w));
      try (by apply (serves_created amb chatId w));
      try (by apply (serves_click amb chatId w));
      try (by apply (serves_begin amb chatId w); [| unfold storedTask; auto]).
    all: match goal with
         | H : hasType ?o ?t = true |- _ =>
             change o with (pendingOf w chatId) in H;
             destruct (pendingOf w chatId) as [task|] eqn:Hp; [| done];
             assert (type task = t) as Hty by (by destruct task as [[] ?])
         end.
    + replace 5 with (rewardOf (type task)) by (by rewrite Hty). by apply serves_reward.
    + replace 3 with (rewardOf (type task)) by (by rewrite Hty). by apply serves_reward.
Qed.



(** Whatever the request, the handler either leaves the world as it is or
    serves a message of a chat other than 0. *)
Lemma handle_cases env w amb request :
  handle env w (amb, request) = w ∨
  ∃ chatId, chatId ≠ 0 ∧ eventUser request = Some chatId ∧
            serves amb chatId w (handle env w (amb, request)).
Proof.
  destruct (decide (secretHeader request = Some (TELEGRAM_WEBHOOK_SECRET env))) as [Hh|Hh].
  - destruct (eventUser request) as [chatId|] eqn:Hu.
    + destruct (decide (chatId = 0)) as [->|Hz].
      * left. unfold handle. cbn [fst snd].
        rewrite POST_no_chat; auto.
      * right. exists chatId. split; [done |]. split; [done |].
        assert (delivers env request chatId (rawText request)) as Hd.
        { split; [| done]. unfold headerIs. by rewrite Hh, String.eqb_refl. }
        destruct (POST_serves env amb request chatId _ w Hd Hz) as (w' & Hp & Hs).
        unfold handle. cbn [fst snd]. by rewrite Hp.
    + left. unfold handle. cbn [fst snd]. rewrite POST_no_chat; auto.
  - left. unfold handle. cbn [fst snd]. by rewrite POST_forbidden.
Qed.

(** ** Invariants of the table and of the pending tasks *)




Lemma update_points_lookup p key (t : gmap string UserRow) k row :
  Users.update_points p key t !! k = Some row →
  ∃ r, t !! k = Some r ∧ telegram_id row = telegram_id r ∧ created_at row = created_at r.
Proof.
  unfold Users.update_points.
  intros [(-> & r & Hr & ->)|(_ & Hr)]%lookup_alter_Some; eauto.
Qed.

Lemma tasksWellFormed_handle env w amb request :
  (0 <= random amb)%Q → (random amb < 1)%Q →
  tasksWellFormed w → tasksWellFormed (handle env w (amb, request)).
Proof.
  intros H0 H1 Hw.
  destruct (handle_cases env w amb request) as [->|(chatId & _ & _ & Hs)]; [done |].
  destruct Hs as [reply | reply Hnone | reply Hg | task reply Hp | task reply Hg Hst];
    intros k p; cbn [pendingTasks said tgSendMessage snd]; try apply Hw.
  - intros [_ Hk]%lookup_delete_Some. by apply Hw in Hk.
  - intros [[_ <-]|[_ Hk]]%lookup_insert_Some; [| by apply Hw in Hk].
    destruct Hst as [-> | [-> | ->]]; simpl; [done | done |].
    eexists. split; [done |]. by apply target_in_range.
Qed.

(** X5. An invariant of every world the handler produces, whoever sends
    what: as long as [Math.random()] returns values of [0, 1), each pending
    video or ad task carries no number and each pending guess task carries
    a target of 1 to 5. *)
Theorem tasks_stay_well_formed env evs w :
  Forall (λ ev : Ambient * Request, (0 <= random ev.1)%Q ∧ (random ev.1 < 1)%Q) evs →
  tasksWellFormed w → tasksWellFormed (run env evs w).
Proof.
  intros Hall. revert w.
  induction Hall as [|[amb request] evs [H0 H1] _ IH]; intros w Ht; [done |].
  apply IH. by apply tasksWellFormed_handle.
Qed.

Lemma tasksWellFormed_fresh : tasksWellFormed Sample.fresh.
Proof. intros k p Hk. cbn [Sample.fresh pendingTasks] in Hk. by rewrite lookup_empty in Hk. Qed.

Lemma tasks_stay_well_formed_witness :
  tasksWellFormed
    (run Sample.env [(Sample.amb, Sample.textFrom 42 "/start");
                     (Sample.amb, Sample.textFrom 42 "/guess");
                     (Sample.amb, Sample.textFrom 7 "/video")] Sample.fresh).
Proof.
  apply (tasks_stay_well_formed Sample.env).
  - repeat constructor; unfold Qle, Qlt; simpl; lia.
  - apply tasksWellFormed_fresh.
Defined.

(** With a store that answers every query and exact integers. Points are paid for a click or for a pending task only. Whenever a
    request changes the balance of an identity, the request comes from that
    identity, which has a ledger row, and either no guess was pending and
    the balance grew by 1 with the pending tasks untouched, or a task was
    pending, the balance grew by the reward of its type (5 for a video, 3
    for an ad, 2 for a guess) and the task is gone. *)
Theorem points_only_for_click_or_task env amb request w (u : Z) :
  let w' := handle env w (amb, request) in
  balance w' u ≠ balance w u →
  eventUser request = Some u ∧ is_Some (users w !! Js.String_ u) ∧
  ((isGuess (pendingOf w u) = false ∧ balance w' u = balance w u + 1 ∧
    pendingTasks w' = pendingTasks w) ∨
   (∃ task, pendingOf w u = Some task ∧
            balance w' u = balance w u + rewardOf (type task) ∧
            pendingOf w' u = None)).
Proof.
  intros w' Hne. subst w'.
  destruct (handle_cases env w amb request) as [Heq|(chatId & Hz & Hu & Hs)].
  { by rewrite Heq in Hne. }
  assert (∀ p, balance w u ≠ pointsOr0 (Users.update_points p (Js.String_ chatId) (users w)
                                          !! Js.String_ u) →
               chatId = u ∧ is_Some (users w !! Js.String_ u)) as Hupd.
  { intros p Hp. unfold balance, Users.update_points in Hp.
    destruct (decide (Js.String_ chatId = Js.String_ u)) as [Heq|Hk].
    - split; [by apply String_inj |].
      rewrite Heq, lookup_alter_eq in Hp. by destruct (users w !! Js.String_ u).
    - by rewrite lookup_alter_ne in Hp. }
  revert Hne.
  destruct Hs as [reply | reply Hnone | reply Hg | task reply Hp | task reply Hg Hst];
    unfold balance at 1; cbn [users pendingTasks said tgSendMessage snd].
  - done.
  - intros Hne. exfalso. apply Hne. unfold balance.
    destruct (decide (Js.String_ chatId = Js.String_ u)) as [<-|Hk].
    + by rewrite lookup_insert_eq, Hnone.
    + by rewrite lookup_insert_ne.
  - intros Hne. destruct (Hupd _ (not_eq_sym Hne)) as [-> Hrow].
    split; [done |]. split; [done |]. left.
    split; [done |]. split; [| done].
    unfold balance at 1. cbn [users]. by rewrite update_points_present.
  - intros Hne. destruct (Hupd _ (not_eq_sym Hne)) as [-> Hrow].
    split; [done |]. split; [done |]. right. exists task.
    split; [done |]. split.
    + unfold balance at 1. cbn [users]. by rewrite update_points_present.
    + unfold pendingOf. cbn [pendingTasks]. apply lookup_delete_eq.
  - done.
Qed.


(** ** The commands outside the guess mode *)







(** With a store that answers every query and exact integers. A [/done video] or [/done ad] text whose kind is that of the
    pending task pays 5 points for a video and 3 for an ad to a chat that
    has a ledger row, deletes the task and reports the new total. The kind
    is video as soon as the text contains [video], also after [/done ad]. *)
Theorem done_pays_once env amb request chatId raw w task :
  delivers env request chatId raw → chatId ≠ 0 →
  Js.startsWith (Js.trim raw) "/done video" || Js.startsWith (Js.trim raw) "/done ad" = true →
  pendingOf w chatId = Some task →
  type task = (if Js.includes (Js.trim raw) "video" then Video else Ad) →
  is_Some (users w !! Js.String_ chatId) →
  let w' := handle env w (amb, request) in
  let pts := rewardOf (type task) in
  balance w' chatId = balance w chatId + pts ∧
  pendingOf w' chatId = None ∧
  outbox w' = (outbox w ++ [(chatId, earned pts (balance w chatId + pts))])%list.
Proof.
  intros Hd Hz Hs Hp Hty Hrow w' pts. subst w' pts. unfold handle. cbn [fst snd].
  assert (isGuess (pendingOf w chatId) = false) as Hg.
  { rewrite Hp. simpl. rewrite Hty. by destruct (Js.includes _ _). }
  rewrite (POST_done_match _ _ _ _ _ _ Hd Hz Hg Hs).
  - rewrite Hty. unfold pendingOf, balance at 1. cbn [snd users pendingTasks outbox].
    rewrite lookup_delete_eq.
    destruct (Js.includes (Js.trim raw) "video"); cbn [rewardOf];
      (split; [by apply update_points_present | done]).
  - rewrite Hp. simpl. rewrite Hty. by destruct (Js.includes _ _).
Qed.


(** ** More on the guess mode *)



(** *** [parseInt] reads back what [String] writes *)

Lemma digitsValue_of_uint_acc d (acc : positive) :
  Js.digitsValue (NilEmpty.string_of_uint d) (Z.pos acc) = Z.pos (Pos.of_uint_acc d acc).
Proof.
  revert acc. induction d as [|d IH|d IH|d IH|d IH|d IH|d IH|d IH|d IH|d IH|d IH];
    intros acc; cbn [NilEmpty.string_of_uint Js.digitsValue Pos.of_uint_acc]; [done | ..];
    simpl Js.digitValue; cbv beta iota; rewrite <- IH; f_equal;
    try (simpl (Z.of_N (N_of_ascii _))); lia.
Qed.

Lemma digitsValue_of_uint d :
  Js.digitsValue (NilEmpty.string_of_uint d) 0 = Z.of_N (Pos.of_uint d).
Proof.
  induction d as [|d IH|d IH|d IH|d IH|d IH|d IH|d IH|d IH|d IH|d IH];
    cbn [NilEmpty.string_of_uint Js.digitsValue Pos.of_uint]; [done | ..];
    simpl Js.digitValue; cbv beta iota; [exact IH | ..];
    rewrite N2Z.inj_pos, <- digitsValue_of_uint_acc; f_equal.
Qed.

Lemma parseInt_string_of_uint d :
  d ≠ Decimal.Nil →
  Js.parseInt (NilEmpty.string_of_uint d) = Some (Z.of_N (Pos.of_uint d)) ∧
  Js.parseInt (String "-" (NilEmpty.string_of_uint d)) = Some (- Z.of_N (Pos.of_uint d)).
Proof.
  intros Hd. rewrite <- digitsValue_of_uint.
  destruct d; [done | ..]; split; unfold Js.parseInt;
    cbn [NilEmpty.string_of_uint Js.trimStart];
    change (Js.isWhiteSpace _) with false; cbv beta iota;
    simpl Js.digitValue; cbv beta iota; f_equal; lia.
Qed.

(** [parseInt] reads back the integer [String] writes, negative ones
    included. *)
Lemma parseInt_String n : Js.parseInt (Js.String_ n) = Some n.
Proof.
  unfold Js.String_, NilZero.string_of_int, NilZero.string_of_uint.
  destruct n as [|p|p]; [done | |]; cbn [Z.to_int].
  - pose proof (DecimalPos.Unsigned.to_uint_nonnil p) as Hp.
    destruct (parseInt_string_of_uint _ Hp) as [H _].
    rewrite DecimalPos.Unsigned.of_to in H.
    by destruct (Pos.to_uint p).
  - pose proof (DecimalPos.Unsigned.to_uint_nonnil p) as Hp.
    destruct (parseInt_string_of_uint _ Hp) as [_ H].
    rewrite DecimalPos.Unsigned.of_to in H.
    by destruct (Pos.to_uint p).
Qed.

(** With a store that answers every query and exact integers. The numeral of the pending target, as [String] writes it and with
    any white space around it, always wins: a chat that has a ledger row
    gets 2 points, the task is deleted and the reply reports the new
    total. *)
Theorem right_numeral_wins env amb request chatId raw w r :
  delivers env request chatId raw → chatId ≠ 0 →
  pendingOf w chatId = Some {| type := Guess; number := Some r |} →
  Js.trim raw = Js.String_ r →
  is_Some (users w !! Js.String_ chatId) →
  let w' := handle env w (amb, request) in
  balance w' chatId = balance w chatId + 2 ∧
  pendingOf w' chatId = None ∧
  outbox w' = (outbox w ++ [(chatId, correctGuess (balance w chatId + 2))])%list.
Proof.
  intros Hd Hz Hp Ht Hrow.
  assert (Js.parseInt (Js.trim raw) = Some r) as Hn by (rewrite Ht; apply parseInt_String).
  destruct (guess_resolution env amb request chatId raw w r r Hd Hz Hp Hn) as [Hwin _].
  destruct (Hwin eq_refl) as (? & ? & Hb & _). auto.
Qed.


(** ** The ledger functions *)

Lemma ensureUser_present amb telegramId w row :
  users w !! Js.String_ telegramId = Some row →
  ensureUser amb telegramId w = (Some row, w).
Proof. intros Hrow. unfold ensureUser. steps. rewrite Hrow. by destruct w. Qed.

Lemma ensureUser_absent amb telegramId w :
  users w !! Js.String_ telegramId = None →
  ensureUser amb telegramId w =
    (Some (newRow amb telegramId),
     {| users := <[Js.String_ telegramId := newRow amb telegramId]> (users w);
        pendingTasks := pendingTasks w; outbox := outbox w |}).
Proof.
  intros Hrow. unfold ensureUser. steps. rewrite Hrow. cbn [fst snd users telegram_id].
  by rewrite Hrow.
Qed.



(** ** Concurrent calls under any schedule *)

Lemma returnedCount_insert calls i c c' :
  calls !! i = Some c →
  (returnedCount (<[i := c']> calls) + (if isReturned c then 1 else 0) =
   returnedCount calls + (if isReturned c' then 1 else 0))%nat.
Proof.
  revert i. induction calls as [|x calls IH]; intros [|i] Hi; simpl in *; try done.
  - simplify_eq. lia.
  - specialize (IH i Hi). lia.
Qed.

Lemma returnedCount_le calls : (returnedCount calls ≤ length calls)%nat.
Proof. induction calls as [|c calls IH]; simpl; [lia |]. destruct (isReturned c); lia. Qed.

Lemma incrementWithin_mono u b r r' c :
  (r ≤ r')%nat → incrementWithin u b r c → incrementWithin u b r' c.
Proof. intros Hr. destruct c; simpl; lia. Qed.

Lemma increments_invariant u b sched : ∀ calls t v,
  pointsOr0 (t !! Js.String_ u) = v → is_Some (t !! Js.String_ u) →
  b <= v <= b + Z.of_nat (returnedCount calls) →
  ((0 < returnedCount calls)%nat → b + 1 <= v) →
  Forall (incrementWithin u b (returnedCount calls)) calls →
  let r := runSchedule sched calls t in
  is_Some (r.2 !! Js.String_ u) ∧
  b <= pointsOr0 (r.2 !! Js.String_ u) <= b + Z.of_nat (returnedCount r.1) ∧
  ((0 < returnedCount r.1)%nat → b + 1 <= pointsOr0 (r.2 !! Js.String_ u)) ∧
  Forall (incrementWithin u b (returnedCount r.1)) r.1 ∧
  length r.1 = length calls.
Proof.
  induction sched as [|i sched IH]; intros calls t v Hv Hrow Hb Hpos Hall r.
  - subst r v. simpl. repeat split; try done; lia.
  - subst r. cbn [runSchedule].
    destruct (calls !! i) as [c|] eqn:Hi; [| by eapply IH].
    pose proof (Forall_lookup_1 _ _ _ _ Hall Hi) as Hc.
    pose proof (returnedCount_insert calls i c) as Hcount.
    destruct c as [id d | id m | m]; cbn [stepCall incrementWithin] in *.
    + destruct Hc as [-> ->].
      specialize (Hcount (AtUpdate u (pointsOr0 (Users.select (Js.String_ u) t) + 1)) Hi).
      cbn [isReturned] in Hcount.
      assert (returnedCount (<[i:=AtUpdate u (pointsOr0 (Users.select (Js.String_ u) t) + 1)]>
                               calls) = returnedCount calls) as Hsame by lia.
      edestruct (IH (<[i:=AtUpdate u (pointsOr0 (Users.select (Js.String_ u) t) + 1)]> calls)
                   t v) as (? & ? & ? & ? & Hlen); try done.
      * rewrite Hsame. lia.
      * rewrite Hsame. done.
      * rewrite Hsame. apply Forall_insert; [done |].
        simpl. unfold Users.select. rewrite Hv. lia.
      * rewrite length_insert in Hlen. done.
    + destruct Hc as [-> Hm].
      specialize (Hcount (Returned m) Hi). cbn [isReturned] in Hcount.
      assert (returnedCount (<[i:=Returned m]> calls) = S (returnedCount calls)) as Hmore by lia.
      edestruct (IH (<[i:=Returned m]> calls)
                   (Users.update_points m (Js.String_ u) t) m) as (? & ? & ? & ? & Hlen);
        try done.
      * by apply update_points_present.
      * unfold Users.update_points. destruct Hrow as [row Hrow].
        by rewrite lookup_alter_eq, Hrow.
      * rewrite Hmore. lia.
      * intros _. lia.
      * rewrite Hmore. apply Forall_insert.
        -- eapply Forall_impl; [exact Hall |]. intros c. apply incrementWithin_mono. lia.
        -- simpl. lia.
      * rewrite length_insert in Hlen. done.
    + rewrite list_insert_id by done. by eapply IH.
Qed.

(** With a store that answers every query and exact integers. However the store interleaves the queries of [n] concurrent calls
    [updatePoints(u, 1)] on an identity that has a row, the balance never
    drops below the one before the calls and never exceeds it by more than
    the number of calls that have returned; once a call has returned the
    balance is at least one higher; and every call returns a total between
    the old balance plus 1 and the old balance plus [n]. *)
Theorem concurrent_increments_bounded u n sched (t : gmap string UserRow) row :
  t !! Js.String_ u = Some row →
  let r := runSchedule sched (replicate n (AtSelect u 1)) t in
  let after := pointsOr0 (r.2 !! Js.String_ u) in
  points row <= after <= points row + Z.of_nat (returnedCount r.1) ∧
  ((0 < returnedCount r.1)%nat → points row + 1 <= after) ∧
  (returnedCount r.1 ≤ n)%nat ∧
  ∀ i total, r.1 !! i = Some (Returned total) →
             points row + 1 <= total <= points row + Z.of_nat n.
Proof.
  intros Hrow r after. subst r after.
  assert (returnedCount (replicate n (AtSelect u 1)) = 0%nat) as H0.
  { induction n as [|n IH]; simpl; [done | by rewrite IH]. }
  edestruct (increments_invariant u (points row) sched (replicate n (AtSelect u 1)) t
               (points row)) as (_ & Hb & Hpos & Hall & Hlen).
  - by rewrite Hrow.
  - by eexists.
  - rewrite H0. lia.
  - rewrite H0. lia.
  - rewrite H0. apply Forall_forall. intros c [-> _]%elem_of_replicate. done.
  - rewrite length_replicate in Hlen.
    pose proof (returnedCount_le (runSchedule sched (replicate n (AtSelect u 1)) t).1) as Hle.
    rewrite Hlen in Hle.
    split; [exact Hb |]. split; [exact Hpos |]. split; [exact Hle |].
    intros i total Hi. pose proof (Forall_lookup_1 _ _ _ _ Hall Hi) as Hc. simpl in Hc. lia.
Qed.


Lemma aloneOn_ext t0 (t t' : gmap string UserRow) spec c :
  t' !! Js.String_ spec.1 = t !! Js.String_ spec.1 →
  aloneOn t0 t spec c → aloneOn t0 t' spec c.
Proof. intros Heq. destruct c; simpl; rewrite Heq; done. Qed.

Lemma alone_invariant t0 (specs : list (Z * Z)) sched :
  NoDup specs.*1 →
  ∀ calls t,
    length calls = length specs →
    (∀ i spec c, specs !! i = Some spec → calls !! i = Some c → aloneOn t0 t spec c) →
    let r := runSchedule sched calls t in
    ∀ i spec c, specs !! i = Some spec → r.1 !! i = Some c → aloneOn t0 r.2 spec c.
Proof.
  intros Hnd. induction sched as [|j sched IH]; intros calls t Hlen Hinv r; [done |].
  subst r. cbn [runSchedule].
  destruct (calls !! j) as [cj|] eqn:Hj; [| by apply IH].
  destruct (specs !! j) as [sj|] eqn:Hsj.
  2: { apply lookup_ge_None in Hsj. apply lookup_lt_Some in Hj. lia. }
  pose proof (Hinv j sj cj Hsj Hj) as Hcj.
  assert (∀ i spec, i ≠ j → specs !! i = Some spec →
                    Js.String_ spec.1 ≠ Js.String_ sj.1) as Hother.
  { intros i spec Hij Hi Heq. apply String_inj in Heq. apply Hij.
    eapply (NoDup_lookup _ i j); [exact Hnd | |].
    - rewrite list_lookup_fmap, Hi. done.
    - rewrite list_lookup_fmap, Hsj. simpl. by rewrite Heq. }
  destruct (stepCall cj t) as [cj' t'] eqn:Hstep.
  apply IH; [by rewrite length_insert |].
  intros i spec c Hi Hc.
  destruct (decide (i = j)) as [->|Hij].
  - rewrite list_lookup_insert_eq in Hc by (by eapply lookup_lt_Some).
    simplify_eq.
    destruct cj as [id d | id n | n]; simpl in Hstep, Hcj; simplify_eq; simpl.
    + destruct Hcj as (-> & -> & Ht). unfold Users.select. by rewrite Ht.
    + destruct Hcj as (-> & -> & Ht). split; [done |].
      unfold Users.update_points. by rewrite !lookup_alter_eq, Ht.
    + done.
  - rewrite list_lookup_insert_ne in Hc by done.
    apply (aloneOn_ext t0 t); [| by eapply Hinv].
    destruct cj as [id d | id n | n]; simpl in Hstep, Hcj; simplify_eq; try done.
    destruct Hcj as (-> & _ & _).
    unfold Users.update_points. rewrite lookup_alter_ne; [done |].
    apply not_eq_sym. by eapply Hother.
Qed.

(** With a store that answers every query and exact integers. Concurrent calls of [updatePoints] on pairwise distinct identities
    do not disturb one another, however the store interleaves their
    queries: a call that has returned has returned the balance of its
    identity before the calls plus its delta, and the row of the identity,
    when there is one, holds that total. *)
Theorem concurrent_calls_on_distinct_identities (specs : list (Z * Z)) sched
    (t0 : gmap string UserRow) :
  NoDup specs.*1 →
  let r := runSchedule sched ((λ s : Z * Z, AtSelect s.1 s.2) <$> specs) t0 in
  ∀ i telegramId delta total,
    specs !! i = Some (telegramId, delta) →
    r.1 !! i = Some (Returned total) →
    total = pointsOr0 (t0 !! Js.String_ telegramId) + delta ∧
    (is_Some (t0 !! Js.String_ telegramId) →
     pointsOr0 (r.2 !! Js.String_ telegramId) = total).
Proof.
  intros Hnd r i telegramId delta total Hi Hc. subst r.
  pose proof (alone_invariant t0 specs sched Hnd
                ((λ s : Z * Z, AtSelect s.1 s.2) <$> specs) t0) as Hinv.
  cbn zeta in Hinv.
  specialize (Hinv (length_fmap _ _)).
  assert (aloneOn t0 (runSchedule sched ((λ s : Z * Z, AtSelect s.1 s.2) <$> specs) t0).2
            (telegramId, delta) (Returned total)) as [-> Ht].
  { eapply Hinv; [| exact Hi | exact Hc].
    intros k spec c Hk Hck. rewrite list_lookup_fmap, Hk in Hck. simplify_eq/=. done. }
  cbn [fst snd] in *. split; [done |].
  intros Hrow. rewrite Ht. by apply update_points_present.
Qed.


(** ** The dashboard *)


(** With a store that answers every query and exact integers. The dashboard agrees with the bot: once the bot has answered a
    [/start] or a [/points] of a chat outside the guess mode, a lookup of
    the chat id, typed as [String] writes it, shows the balance the reply
    announced and no error. *)
Theorem dashboard_agrees_with_bot env amb request chatId raw w s :
  delivers env request chatId raw → chatId ≠ 0 →
  isGuess (pendingOf w chatId) = false →
  Js.startsWith (Js.trim raw) "/start" || Js.startsWith (Js.trim raw) "/points" = true →
  let w' := handle env w (amb, request) in
  let s' := Dashboard.handleSubmit (users w')
              (Dashboard.onChange (Js.String_ chatId) s) in
  outbox w' = (outbox w ++ [(chatId, balanceReply (Js.trim raw) (balance w chatId))])%list ∧
  Dashboard.points s' = Some (balance w chatId) ∧
  Dashboard.error s' = None.
Proof.
  intros Hd Hz Hg Hs w' s'. subst w' s'. unfold handle. cbn [fst snd].
  rewrite (POST_start_points _ _ _ _ _ _ Hd Hz Hg Hs). cbn [snd users outbox].
  split; [done |].
  unfold Dashboard.handleSubmit, Dashboard.onChange, Users.select, dataPoints, balance.
  cbn [Dashboard.telegramId].
  assert (Js.String_ chatId ≠ "") as Hne.
  { intros Heq. change "" with (NilEmpty.string_of_uint Decimal.Nil) in Heq.
    unfold Js.String_, NilZero.string_of_int, NilZero.string_of_uint in Heq.
    destruct chatId as [|p|p]; [done | | done]. cbn [Z.to_int] in Heq.
    pose proof (DecimalPos.Unsigned.to_uint_nonnil p) as Hp.
    by destruct (Pos.to_uint p). }
  destruct (Js.String_ chatId) as [|c id] eqn:Hkey; [done |].
  destruct (users w !! String c id) as [row|] eqn:Hrow.
  - by rewrite Hrow.
  - by rewrite lookup_insert_eq.
Qed.


(** ** Start-up *)

Lemma requireEnv_inl processEnv name v :
  requireEnv processEnv name = inl v ↔ processEnv !! name = Some v ∧ v ≠ "".
Proof.
  unfold requireEnv. destruct (processEnv !! name) as [[|c s]|]; split.
  - done.
  - by intros [[= <-] ?].
  - by intros [= <-].
  - by intros [[= <-] _].
  - done.
  - by intros [[=] _].
Qed.

Lemma requireEnv_inr processEnv name e :
  requireEnv processEnv name = inr e ↔
  e = "Missing env: " ++ name ∧ (processEnv !! name = None ∨ processEnv !! name = Some "").
Proof.
  unfold requireEnv. destruct (processEnv !! name) as [[|c s]|]; split.
  - intros [= <-]. auto.
  - by intros [-> _].
  - done.
  - by intros [_ [[=]|[=]]].
  - intros [= <-]. auto.
  - by intros [-> _].
Qed.

Lemma loadConstants_outcome_secret processEnv c :
  loadConstants processEnv = inl c → WEBHOOK_SECRET c ≠ "".
Proof.
  unfold loadConstants. intros H.
  destruct (requireEnv processEnv "TELEGRAM_BOT_TOKEN"); [| done].
  destruct (requireEnv processEnv "TELEGRAM_WEBHOOK_SECRET") as [secret|] eqn:H2; [| done].
  destruct (requireEnv processEnv "SUPABASE_URL"); [| done].
  apply requireEnv_inl in H2 as [_ H2]. by simplify_eq.
Qed.

(** X18. Loading the module computes its constants only when
    [TELEGRAM_BOT_TOKEN], [TELEGRAM_WEBHOOK_SECRET] and [SUPABASE_URL] are
    all set and not empty, and then they are the values of the environment;
    otherwise it throws [Missing env:] with the first of the three, in that
    order, that is unset or empty. The Supabase key is the service role key
    when that is set and not empty. *)
Theorem loadConstants_outcome processEnv :
  match loadConstants processEnv with
  | inl c =>
      processEnv !! "TELEGRAM_BOT_TOKEN" = Some (TELEGRAM_BOT_TOKEN c) ∧
      processEnv !! "TELEGRAM_WEBHOOK_SECRET" = Some (WEBHOOK_SECRET c) ∧
      processEnv !! "SUPABASE_URL" = Some (SUPABASE_URL c) ∧
      TELEGRAM_BOT_TOKEN c ≠ "" ∧ WEBHOOK_SECRET c ≠ "" ∧ SUPABASE_URL c ≠ "" ∧
      (∀ k, processEnv !! "SUPABASE_SERVICE_ROLE_KEY" = Some k → k ≠ "" → SUPABASE_KEY c = k)
  | inr e =>
      ∃ before name after,
        ["TELEGRAM_BOT_TOKEN"; "TELEGRAM_WEBHOOK_SECRET"; "SUPABASE_URL"]
          = (before ++ name :: after)%list ∧
        e = "Missing env: " ++ name ∧
        (processEnv !! name = None ∨ processEnv !! name = Some "") ∧
        Forall (λ n, ∃ v, processEnv !! n = Some v ∧ v ≠ "") before
  end.
Proof.
  unfold loadConstants.
  destruct (requireEnv processEnv "TELEGRAM_BOT_TOKEN") as [token|e1] eqn:H1.
  2: { apply requireEnv_inr in H1 as [-> H1]. exists [], "TELEGRAM_BOT_TOKEN". eauto. }
  apply requireEnv_inl in H1 as [H1 H1'].
  destruct (requireEnv processEnv "TELEGRAM_WEBHOOK_SECRET") as [secret|e2] eqn:H2.
  2: { apply requireEnv_inr in H2 as [-> H2].
       exists ["TELEGRAM_BOT_TOKEN"], "TELEGRAM_WEBHOOK_SECRET". eauto 10. }
  apply requireEnv_inl in H2 as [H2 H2'].
  destruct (requireEnv processEnv "SUPABASE_URL") as [url|e3] eqn:H3.
  2: { apply requireEnv_inr in H3 as [-> H3].
       exists ["TELEGRAM_BOT_TOKEN"; "TELEGRAM_WEBHOOK_SECRET"], "SUPABASE_URL".
       eexists. repeat split; eauto 10. }
  apply requireEnv_inl in H3 as [H3 H3'].
  cbn. repeat split; try done.
  intros k -> Hk. by destruct k.
Qed.

(** X19. A handler whose module has loaded never accepts a request without
    the secret header or with an empty one: the secret it compares with is
    not empty, so such a request is answered 403 and changes nothing. *)
Theorem loaded_handler_rejects_empty_header processEnv c amb request w :
  loadConstants processEnv = inl c →
  secretHeader request = None ∨ secretHeader request = Some "" →
  POST (envOf processEnv c) amb request w = (json false (Some "forbidden") 403, w).
Proof.
  intros Hload Hh. apply POST_forbidden. cbn [envOf TELEGRAM_WEBHOOK_SECRET].
  pose proof (loadConstants_outcome_secret processEnv c Hload) as Hne.
  destruct Hh as [->| ->]; [done |]. intros [= Heq]. by apply Hne.
Qed.

Lemma loaded_handler_rejects_empty_header_witness :
  let processEnv : gmap string string :=
    {[ "TELEGRAM_BOT_TOKEN" := "12345:ABC"; "TELEGRAM_WEBHOOK_SECRET" := "super-secret";
       "SUPABASE_URL" := "https://xxxx.supabase.co"; "SUPABASE_ANON_KEY" := "eyJ" ]} in
  let c := {| TELEGRAM_BOT_TOKEN := "12345:ABC"; WEBHOOK_SECRET := "super-secret";
              SUPABASE_URL := "https://xxxx.supabase.co"; SUPABASE_KEY := "eyJ" |} in
  let request := {| secretHeader := Some ""; body := body (Sample.textFrom 42 "/click") |} in
  POST (envOf processEnv c) Sample.amb request Sample.fresh
  = (json false (Some "forbidden") 403, Sample.fresh).
Proof.
  apply loaded_handler_rejects_empty_header.
  - vm_compute. reflexivity.
  - right. reflexivity.
Defined.

(** ** A whole round of the guess game *)







(** ** Clicks *)



(** * The handler under failures and double arithmetic *)

(** ** Doubles *)

Lemma roundShift_bounds n b :
  0 <= n → 0 < b →
  0 <= Double.roundShift n b * 2 ^ b <= n + 2 ^ (b - 1).
Proof.
  intros Hn Hb. unfold Double.roundShift.
  destruct (Z.leb_spec b 0) as [|_]; [lia |].
  assert (0 < 2 ^ b) as Hpow by (apply Z.pow_pos_nonneg; lia).
  assert (2 ^ b = 2 * 2 ^ (b - 1)) as Hhalf.
  { replace b with (b - 1 + 1) at 1 by lia. rewrite Z.pow_add_r by lia. lia. }
  pose proof (Z.div_mod n (2 ^ b) ltac:(lia)) as Hdm.
  pose proof (Z.mod_pos_bound n (2 ^ b) Hpow) as Hr.
  assert (0 <= n / 2 ^ b) as Hq by (apply Z.div_pos; lia).
  set (q := n / 2 ^ b) in *. set (r := n mod 2 ^ b) in *. set (h := 2 ^ (b - 1)) in *.
  destruct (Z.ltb_spec r h); [nia |].
  destruct (Z.ltb_spec h r); [nia |].
  destruct (Z.even q); nia.
Qed.

Lemma fit_small n : 0 <= n < 2 ^ 53 → Double.fit n = n.
Proof.
  intros [H0 H1]. unfold Double.fit.
  assert (Z.log2 n < 53) as Hlog.
  { destruct (decide (n = 0)) as [->|]; [done |]. apply Z.log2_lt_pow2; lia. }
  rewrite Z.max_l by lia. unfold Double.roundShift. simpl. lia.
Qed.

Lemma add_exact a b : - 2 ^ 53 < a + b < 2 ^ 53 → Double.add a b = a + b.
Proof.
  intros H. unfold Double.add.
  destruct (Z.ltb_spec (a + b) 0); rewrite fit_small; lia.
Qed.

Lemma drawTarget_in_range x : inUnit x → 1 <= drawTarget x <= 5.
Proof.
  intros ([Hm0 Hm1] & [Hk0 Hk1] & Hlt). unfold drawTarget, Double.fit.
  set (m := mantissa x) in *. set (k := exponent x) in *.
  assert (0 < 2 ^ k) as Hpk by (apply Z.pow_pos_nonneg; lia).
  assert (Z.log2 (m * 5) < 56) as Hlog.
  { destruct (decide (m = 0)) as [->|]; [done |].
    apply Z.log2_lt_pow2; [lia |]. change (2 ^ 56) with (8 * 2 ^ 53). lia. }
  pose proof (Z.log2_nonneg (m * 5)) as Hlog0.
  set (b := Z.max 0 (Z.log2 (m * 5) + 1 - 53)).
  assert (0 <= b <= 3) as Hb by (unfold b; lia).
  assert (0 <= Double.roundShift (m * 5) b * 2 ^ b < 5 * 2 ^ k) as [Hf0 Hf1].
  { destruct (decide (b = 0)) as [Hb0|Hb0].
    - rewrite Hb0. unfold Double.roundShift. simpl. lia.
    - pose proof (roundShift_bounds (m * 5) b ltac:(lia) ltac:(lia)) as [H0 H1].
      split; [done |].
      assert (2 ^ (b - 1) <= 4).
      { change 4 with (2 ^ 2). apply Z.pow_le_mono_r; lia. }
      lia. }
  assert (0 <= Double.roundShift (m * 5) b * 2 ^ b / 2 ^ k < 5); [| lia].
  split; [apply Z.div_pos; lia | apply Z.div_lt_upper_bound; lia].
Qed.

(** ** The branches of [Live.POST] *)

(** Opens [Live.POST] on a delivered message of a chat other than 0, up to
    the test of the guess mode. *)
Ltac enterLive Hd Hz :=
  let m := fresh "m" in
  let Hh := fresh in let Hm := fresh in let Hc := fresh in let Ht := fresh in
  destruct (delivers_message _ _ _ _ Hd) as (m & Hh & Hm & Hc & Ht);
  unfold Live.handle, Live.POST; cbn [fst snd]; rewrite Hh, Hm, Hc, Ht;
  rewrite (proj2 (Z.eqb_neq _ 0) Hz); cbv zeta;
  clear Hh Hm Hc Ht.

Lemma Live_POST_guess_nan env inp request chatId raw w :
  delivers env request chatId raw → chatId ≠ 0 →
  isGuess (pendingOf w chatId) = true →
  Js.parseInt (Js.trim raw) = None →
  Live.POST env inp request w = Live.reply (Live.faults inp) chatId guidance w.
Proof.
  intros Hd Hz Hg Hn. enterLive Hd Hz.
  change (pendingTasks w !! Js.String_ chatId) with (pendingOf w chatId).
  by rewrite Hg, Hn.
Qed.

Lemma Live_POST_guess_begin env inp request chatId raw w :
  delivers env request chatId raw → chatId ≠ 0 →
  isGuess (pendingOf w chatId) = false →
  Js.startsWith (Js.trim raw) "/guess" = true →
  Live.POST env inp request w =
    Live.reply (Live.faults inp) chatId
      "Guess a number between 1 and 5. Reply with your guess."
      (Live.setPending w
         (<[Js.String_ chatId := {| type := Guess;
                                    number := Some (drawTarget (Live.drawn inp)) |}]>
            (pendingTasks w))).
Proof.
  intros Hd Hz Hg Hs. enterLive Hd Hz.
  change (pendingTasks w !! Js.String_ chatId) with (pendingOf w chatId).
  rewrite Hg. skip Hs "/start". skip Hs "/points". skip Hs "/click". skip Hs "/video".
  skip Hs "/ad". skip Hs "/done video". skip Hs "/done ad". by rewrite Hs.
Qed.

Lemma Live_reply_world f chatId text w :
  users (Live.reply f chatId text w).2 = users w ∧
  pendingTasks (Live.reply f chatId text w).2 = pendingTasks w ∧
  outbox (Live.reply f chatId text w).2 =
    (if Live.fetchRejects f then outbox w else outbox w ++ [(chatId, text)])%list ∧
  (Live.reply f chatId text w).1 = json (negb (Live.fetchRejects f)) None 200.
Proof. unfold Live.reply. by destruct (Live.fetchRejects f). Qed.

(** C8, as the handler has it. For a [/guess] text and a [Math.random()]
    that is a double of [0, 1), the target [Math.floor(x * 5) + 1], with
    the product rounded as a double, lies between 1 and 5, and the table is
    not touched. When no guess is pending the chat gets the guess task
    with that target in place of any video or ad task. When a guess is
    pending no target is stored: the text is answered by the guess mode
    with the guidance and the pending tasks stay as they were. This holds
    whatever the store does; a [fetch] that rejects only suppresses the
    reply. *)
Theorem begin_guess_live env inp request chatId raw w :
  delivers env request chatId raw → chatId ≠ 0 →
  Js.startsWith (Js.trim raw) "/guess" = true →
  inUnit (Live.drawn inp) →
  let w' := Live.handle env w (inp, request) in
  let r := drawTarget (Live.drawn inp) in
  1 <= r <= 5 ∧
  users w' = users w ∧
  (isGuess (pendingOf w chatId) = false →
     pendingTasks w' =
       <[Js.String_ chatId := {| type := Guess; number := Some r |}]> (pendingTasks w) ∧
     pendingOf w' chatId = Some {| type := Guess; number := Some r |}) ∧
  (isGuess (pendingOf w chatId) = true →
     pendingTasks w' = pendingTasks w ∧
     (Live.fetchRejects (Live.faults inp) = false →
      outbox w' = (outbox w ++ [(chatId, guidance)])%list)).
Proof.
  intros Hd Hz Hs Hx w' r. subst w' r. unfold Live.handle. cbn [fst snd].
  split; [by apply drawTarget_in_range |].
  destruct (isGuess (pendingOf w chatId)) eqn:Hg.
  - assert (Js.startsWith (Js.trim raw) "/" = true) as Hslash.
    { apply startsWith_app in Hs as (rest & ->). reflexivity. }
    rewrite (Live_POST_guess_nan _ _ _ _ _ _ Hd Hz Hg (parseInt_slash _ Hslash)).
    destruct (Live_reply_world (Live.faults inp) chatId guidance w) as (-> & -> & -> & _).
    split; [done |]. split; [done |]. intros _. split; [done |]. by intros ->.
  - rewrite (Live_POST_guess_begin _ _ _ _ _ _ Hd Hz Hg Hs). unfold pendingOf.
    match goal with |- context [Live.reply ?f ?c ?t ?w1] =>
      destruct (Live_reply_world f c t w1) as (-> & -> & _ & _) end.
    cbn [Live.setPending users pendingTasks].
    split; [done |]. split; [| done]. intros _. split; [done |]. apply lookup_insert_eq.
Qed.

Lemma inUnit_zeroPointSix : inUnit zeroPointSix.
Proof. unfold inUnit, zeroPointSix. simpl. lia. Qed.

Lemma begin_guess_live_witness :
  let inp := liveInputs zeroPointSix Live.noFaults in
  let w := run Sample.env [(Sample.amb, Sample.textFrom 42 "/video")] Sample.fresh in
  let w' := Live.handle Sample.env w (inp, Sample.textFrom 42 "/guess") in
  let r := drawTarget zeroPointSix in
  1 <= r <= 5 ∧
  users w' = users w ∧
  (isGuess (pendingOf w 42) = false →
     pendingTasks w' =
       <[Js.String_ 42 := {| type := Guess; number := Some r |}]> (pendingTasks w) ∧
     pendingOf w' 42 = Some {| type := Guess; number := Some r |}) ∧
  (isGuess (pendingOf w 42) = true →
     pendingTasks w' = pendingTasks w ∧
     (Live.fetchRejects Live.noFaults = false →
      outbox w' = (outbox w ++ [(42, guidance)])%list)).
Proof.
  apply (begin_guess_live Sample.env (liveInputs zeroPointSix Live.noFaults)
           (Sample.textFrom 42 "/guess") 42 "/guess").
  - apply delivers_textFrom.
  - lia.
  - reflexivity.
  - apply inUnit_zeroPointSix.
Defined.

(** C8 as the claim words it fails while a guess is pending: with the
    target 3 pending, a [/guess] text for which [Math.random()] returns 0
    would draw the target 1, but nothing is drawn or stored: the chat stays
    in the guess mode with the target 3 and gets the guidance reply. *)
Lemma begin_guess_while_guessing :
  let half := {| mantissa := 1; exponent := 1 |} in
  let zero := {| mantissa := 0; exponent := 0 |} in
  let w := Live.run Sample.env
             [(liveInputs half Live.noFaults, Sample.textFrom 42 "/guess")] Sample.fresh in
  let w' := Live.handle Sample.env w
              (liveInputs zero Live.noFaults, Sample.textFrom 42 "/guess") in
  pendingOf w 42 = Some {| type := Guess; number := Some 3 |} ∧
  drawTarget zero = 1 ∧
  pendingOf w' 42 = Some {| type := Guess; number := Some 3 |} ∧
  pendingOf w' 42 ≠ Some {| type := Guess; number := Some (drawTarget zero) |} ∧
  outbox w' = (outbox w ++ [(42, guidance)])%list.
Proof. vm_compute. repeat split; discriminate. Qed.

(** At [Math.random()] = 0.6 the product is the double 3, not a value
    below it: the target stored is 4. *)
Example target_at_zeroPointSix :
  drawTarget zeroPointSix = 4 ∧
  pendingOf (Live.handle Sample.env Sample.fresh
               (liveInputs zeroPointSix Live.noFaults, Sample.textFrom 42 "/guess")) 42
  = Some {| type := Guess; number := Some 4 |}.
Proof. vm_compute. repeat split. Qed.

(** ** Without failures and within the exact range [Live.POST] is [POST] *)

Lemma ambOf_target inp :
  Js.floor (random (ambOf inp) * 5) + 1 = drawTarget (Live.drawn inp).
Proof.
  unfold ambOf, Js.floor, Qfloor, Qmult. cbn [random Qnum Qden].
  rewrite Z.div_mul by done. lia.
Qed.

Lemma Live_POST_refines env inp request w :
  quiet (Live.faults inp) →
  (∀ chatId, eventUser request = Some chatId → exactFor 5 w chatId) →
  Live.POST env inp request w = POST env (ambOf inp) request w.
Proof.
  intros (Hs & Hi & Hu & Hf) Hex.
  unfold Live.POST, POST. cbv zeta.
  destruct (negb _); [done |].
  unfold eventUser in Hex.
  destruct (message (body request)) as [m|]; [| done].
  specialize (Hex (chat_id m) eq_refl). destruct Hex as [Hlo Hhi]. unfold balance in Hlo, Hhi.
  destruct (chat_id m =? 0)%Z; [done |].
  unfold bind at 1, getPending at 1.
  unfold Live.reply, Live.ensureUser, Live.updatePoints, Live.getUser, Live.createUser.
  rewrite Hs, Hi, Hu, Hf, ambOf_target.
  unfold Users.select, Users.insert. cbn [telegram_id].
  rewrite !add_exact by lia.
  repeat case_match; steps; repeat case_match; simplify_eq/=; try done.
  all: by rewrite !add_exact by lia.
Qed.

Lemma Live_handle_refines env inp request w :
  quiet (Live.faults inp) →
  (∀ chatId, eventUser request = Some chatId → exactFor 5 w chatId) →
  Live.handle env w (inp, request) = handle env w (ambOf inp, request).
Proof.
  intros Hq Hex. unfold Live.handle, handle. cbn [fst snd].
  by rewrite Live_POST_refines.
Qed.


(** ** Rewards, with the failures in view *)

(** X9. When no store call of the invocation fails, the [fetch] resolves
    and the balance is in the exact range, a [/done video] or [/done ad]
    text whose kind is that of the pending task pays 5 points for a video
    and 3 for an ad to a chat that has a ledger row, deletes the task and
    reports the new total. The kind is video as soon as the text contains
    [video], also after [/done ad]. *)
Theorem done_pays_once_live env inp request chatId raw w task :
  quiet (Live.faults inp) → exactFor 5 w chatId →
  delivers env request chatId raw → chatId ≠ 0 →
  Js.startsWith (Js.trim raw) "/done video" || Js.startsWith (Js.trim raw) "/done ad" = true →
  pendingOf w chatId = Some task →
  type task = (if Js.includes (Js.trim raw) "video" then Video else Ad) →
  is_Some (users w !! Js.String_ chatId) →
  let w' := Live.handle env w (inp, request) in
  let pts := rewardOf (type task) in
  balance w' chatId = balance w chatId + pts ∧
  pendingOf w' chatId = None ∧
  outbox w' = (outbox w ++ [(chatId, earned pts (balance w chatId + pts))])%list.
Proof.
  intros Hq Hex Hd Hz Hs Hp Hty Hrow.
  rewrite Live_handle_refines; [by eapply done_pays_once | done |].
  intros c Hc. destruct Hd as (_ & Hu & _). by simplify_eq.
Qed.

Lemma done_pays_once_live_witness :
  let inp := liveInputs zeroPointSix Live.noFaults in
  let w := run Sample.env [(Sample.amb, Sample.textFrom 42 "/start");
                           (Sample.amb, Sample.textFrom 42 "/video")] Sample.fresh in
  let w' := Live.handle Sample.env w (inp, Sample.textFrom 42 "/done ad video") in
  balance w' 42 = balance w 42 + 5 ∧
  pendingOf w' 42 = None ∧
  outbox w' = (outbox w ++ [(42, earned 5 (balance w 42 + 5))])%list.
Proof.
  apply (done_pays_once_live Sample.env (liveInputs zeroPointSix Live.noFaults)
           (Sample.textFrom 42 "/done ad video") 42 "/done ad video" _
           {| type := Video; number := None |}).
  - repeat split.
  - vm_compute. split; reflexivity.
  - apply delivers_textFrom.
  - lia.
  - reflexivity.
  - reflexivity.
  - reflexivity.
  - by eexists.
Defined.

(** X11. When no store call of the invocation fails, the [fetch] resolves
    and the balance is in the exact range, the numeral of the pending
    target, as [String] writes it and with any white space around it, wins
    for every target a double holds exactly: a chat that has a ledger row
    gets 2 points, the task is deleted and the reply reports the new
    total. *)
Theorem right_numeral_wins_live env inp request chatId raw w r :
  quiet (Live.faults inp) → exactFor 5 w chatId →
  - 2 ^ 53 < r < 2 ^ 53 →
  delivers env request chatId raw → chatId ≠ 0 →
  pendingOf w chatId = Some {| type := Guess; number := Some r |} →
  Js.trim raw = Js.String_ r →
  is_Some (users w !! Js.String_ chatId) →
  let w' := Live.handle env w (inp, request) in
  balance w' chatId = balance w chatId + 2 ∧
  pendingOf w' chatId = None ∧
  outbox w' = (outbox w ++ [(chatId, correctGuess (balance w chatId + 2))])%list.
Proof.
  intros Hq Hex Hr Hd Hz Hp Ht Hrow.
  rewrite Live_handle_refines; [by eapply right_numeral_wins | done |].
  intros c Hc. destruct Hd as (_ & Hu & _). by simplify_eq.
Qed.

Lemma right_numeral_wins_live_witness :
  let inp := liveInputs zeroPointSix Live.noFaults in
  let w := Live.run Sample.env [(inp, Sample.textFrom 42 "/start");
                                (inp, Sample.textFrom 42 "/guess")] Sample.fresh in
  let w' := Live.handle Sample.env w (inp, Sample.textFrom 42 "  4 ") in
  balance w' 42 = balance w 42 + 2 ∧
  pendingOf w' 42 = None ∧
  outbox w' = (outbox w ++ [(42, correctGuess (balance w 42 + 2))])%list.
Proof.
  apply (right_numeral_wins_live Sample.env (liveInputs zeroPointSix Live.noFaults)
           (Sample.textFrom 42 "  4 ") 42 "  4 " _ 4).
  - repeat split.
  - vm_compute. split; reflexivity.
  - lia.
  - apply delivers_textFrom.
  - lia.
  - reflexivity.
  - reflexivity.
  - by eexists.
Defined.

(** X6. Points are paid for a click or for a pending task only. When no
    store call of an invocation fails, the [fetch] resolves, the balance of
    the sender is in the exact range and the invocation is handled on its
    own, a change of the balance of an identity means that the request
    comes from that identity, which has a ledger row, and that either no
    guess was pending and the balance grew by 1 with the pending tasks
    untouched, or a task was pending, the balance grew by the reward of its
    type (5 for a video, 3 for an ad, 2 for a guess) and the task is
    gone. *)
Theorem points_only_for_click_or_task_live env inp request w (u : Z) :
  quiet (Live.faults inp) →
  (∀ chatId, eventUser request = Some chatId → exactFor 5 w chatId) →
  let w' := Live.handle env w (inp, request) in
  balance w' u ≠ balance w u →
  eventUser request = Some u ∧ is_Some (users w !! Js.String_ u) ∧
  ((isGuess (pendingOf w u) = false ∧ balance w' u = balance w u + 1 ∧
    pendingTasks w' = pendingTasks w) ∨
   (∃ task, pendingOf w u = Some task ∧
            balance w' u = balance w u + rewardOf (type task) ∧
            pendingOf w' u = None)).
Proof.
  intros Hq Hex. rewrite Live_handle_refines by done.
  apply points_only_for_click_or_task.
Qed.

Lemma points_only_for_click_or_task_live_witness :
  let inp := liveInputs zeroPointSix Live.noFaults in
  let w := run Sample.env [(Sample.amb, Sample.textFrom 42 "/start");
                           (Sample.amb, Sample.textFrom 42 "/video")] Sample.fresh in
  let request := Sample.textFrom 42 "/done video" in
  let w' := Live.handle Sample.env w (inp, request) in
  eventUser request = Some 42 ∧ is_Some (users w !! Js.String_ 42) ∧
  ((isGuess (pendingOf w 42) = false ∧ balance w' 42 = balance w 42 + 1 ∧
    pendingTasks w' = pendingTasks w) ∨
   (∃ task, pendingOf w 42 = Some task ∧
            balance w' 42 = balance w 42 + rewardOf (type task) ∧
            pendingOf w' 42 = None)).
Proof.
  apply (points_only_for_click_or_task_live Sample.env
           (liveInputs zeroPointSix Live.noFaults) (Sample.textFrom 42 "/done video")).
  - repeat split.
  - intros chatId [= <-]. vm_compute. split; reflexivity.
  - vm_compute. discriminate.
Defined.





(** ** What holds whatever fails *)

Lemma rowsKept_refl (t : gmap string UserRow) : rowsKept t t.
Proof. intros k row Hk. eauto. Qed.

Lemma rowsKept_trans (t1 t2 t3 : gmap string UserRow) :
  rowsKept t1 t2 → rowsKept t2 t3 → rowsKept t1 t3.
Proof.
  intros H12 H23 k row Hk.
  destruct (H12 _ _ Hk) as (r2 & Hk2 & Hi2 & Hc2).
  destruct (H23 _ _ Hk2) as (r3 & Hk3 & Hi3 & Hc3).
  exists r3. repeat split; [done | congruence | congruence].
Qed.

Lemma Live_updatePoints_rowsKept f telegramId delta (t : gmap string UserRow) :
  rowsKept t (Live.updatePoints f telegramId delta t).2.
Proof.
  unfold Live.updatePoints. cbn [snd].
  destruct (Live.updateError f); [apply rowsKept_refl |].
  intros k row Hk. unfold Users.update_points.
  destruct (decide (Js.String_ telegramId = k)) as [<-|Hne].
  - rewrite lookup_alter_eq, Hk. eauto.
  - rewrite lookup_alter_ne by done. eauto.
Qed.

Lemma Live_ensureUser_rowsKept f date telegramId (t : gmap string UserRow) :
  rowsKept t (Live.ensureUser f date telegramId t).2.
Proof.
  unfold Live.ensureUser, Live.createUser, Users.insert. cbn [telegram_id].
  destruct (Live.getUser f telegramId t); [apply rowsKept_refl |].
  destruct (Live.insertError f); [apply rowsKept_refl |].
  destruct (t !! Js.String_ telegramId) eqn:Hrow; [apply rowsKept_refl |].
  intros k row Hk. cbn [snd].
  destruct (decide (Js.String_ telegramId = k)) as [<-|Hne]; [congruence |].
  rewrite lookup_insert_ne by done. eauto.
Qed.

Lemma Live_POST_shape env inp request w :
  Live.POST env inp request w = (json false (Some "forbidden") 403, w) ∨
  Live.POST env inp request w = (json true None 200, w) ∨
  ∃ chatId text w1,
    eventUser request = Some chatId ∧ chatId ≠ 0 ∧
    headerIs (secretHeader request) (TELEGRAM_WEBHOOK_SECRET env) = true ∧
    Live.POST env inp request w = Live.reply (Live.faults inp) chatId text w1 ∧
    outbox w1 = outbox w ∧ rowsKept (users w) (users w1).
Proof.
  unfold Live.POST, eventUser. cbv zeta.
  destruct (headerIs _ _) eqn:Hh; [| by left]. cbn [negb].
  destruct (message (body request)) as [m|]; [| by right; left].
  destruct (Z.eqb_spec (chat_id m) 0) as [|Hz]; [by right; left |].
  right. right. exists (chat_id m).
  repeat case_match; simplify_eq/=.
  all: eexists _, _; (split; [done |]); (split; [done |]); (split; [done |]);
    (split; [reflexivity |]); cbn [Live.setPending Live.setUsers outbox users];
    (split; [done |]);
    first [ apply rowsKept_refl
          | match goal with H : Live.updatePoints ?f ?c ?d ?t = _ |- _ =>
              let Hk := fresh in
              pose proof (Live_updatePoints_rowsKept f c d t) as Hk;
              rewrite H in Hk; exact Hk end
          | match goal with H : Live.ensureUser ?f ?dt ?c ?t = _ |- _ =>
              let Hk := fresh in
              pose proof (Live_ensureUser_rowsKept f dt c t) as Hk;
              rewrite H in Hk; exact Hk end ].
Qed.

Lemma Live_POST_served env inp request chatId raw w :
  delivers env request chatId raw → chatId ≠ 0 →
  ∃ text w1,
    Live.POST env inp request w = Live.reply (Live.faults inp) chatId text w1 ∧
    outbox w1 = outbox w.
Proof.
  intros Hd Hz. enterLive Hd Hz.
  repeat case_match; simplify_eq/=; by eexists _, _.
Qed.

(** X3. A served message (right secret, chat id other than 0) hands
    exactly one reply to Telegram, addressed to the chat it came from,
    after the messages already sent, and is answered 200 [ok: true]; when
    the [fetch] rejects, the handler catches it, sends nothing and answers
    200 [ok: false]. This holds whatever the store calls do. *)
Theorem one_reply_per_message_live env inp request chatId raw w :
  delivers env request chatId raw → chatId ≠ 0 →
  let r := Live.POST env inp request w in
  (Live.fetchRejects (Live.faults inp) = false →
     r.1 = json true None 200 ∧
     ∃ text, outbox r.2 = (outbox w ++ [(chatId, text)])%list) ∧
  (Live.fetchRejects (Live.faults inp) = true →
     r.1 = json false None 200 ∧ outbox r.2 = outbox w).
Proof.
  intros Hd Hz r. subst r.
  destruct (Live_POST_served env inp request chatId raw w Hd Hz) as (text & w1 & -> & Ho).
  destruct (Live_reply_world (Live.faults inp) chatId text w1) as (_ & _ & -> & ->).
  split; intros ->; cbn [negb]; rewrite Ho; eauto.
Qed.

Lemma one_reply_per_message_live_witness :
  let inp := liveInputs zeroPointSix
               {| Live.selectError := true; Live.insertError := true;
                  Live.updateError := false; Live.fetchRejects := true |} in
  let r := Live.POST Sample.env inp (Sample.textFrom 42 "/start") Sample.fresh in
  (Live.fetchRejects (Live.faults inp) = false →
     r.1 = json true None 200 ∧
     ∃ text, outbox r.2 = (outbox Sample.fresh ++ [(42, text)])%list) ∧
  (Live.fetchRejects (Live.faults inp) = true →
     r.1 = json false None 200 ∧ outbox r.2 = outbox Sample.fresh).
Proof.
  apply (one_reply_per_message_live Sample.env _ (Sample.textFrom 42 "/start") 42 "/start").
  - apply delivers_textFrom.
  - lia.
Defined.

(** X4. No request ever removes a ledger row or rewrites its [telegram_id]
    or [created_at], whatever fails: along any sequence of requests
    handled one after the other a row that exists keeps existing with both
    fields as they were. *)
Theorem rows_never_deleted_live env evs w k row :
  users w !! k = Some row →
  ∃ row', users (Live.run env evs w) !! k = Some row' ∧
          telegram_id row' = telegram_id row ∧ created_at row' = created_at row.
Proof.
  revert w row. induction evs as [|[inp request] evs IH]; intros w row Hrow; [eauto |].
  cbn [Live.run fold_left]. fold (Live.run env evs (Live.handle env w (inp, request))).
  assert (rowsKept (users w) (users (Live.handle env w (inp, request)))) as Hkept.
  { unfold Live.handle. cbn [fst snd].
    destruct (Live_POST_shape env inp request w)
      as [->|[->|(c & text & w1 & _ & _ & _ & -> & _ & Hk)]];
      [apply rowsKept_refl | apply rowsKept_refl |].
    by destruct (Live_reply_world (Live.faults inp) c text w1) as (-> & _). }
  destruct (Hkept _ _ Hrow) as (r1 & Hr1 & Hi & Hc).
  destruct (IH _ _ Hr1) as (row' & ? & ? & ?).
  exists row'. repeat split; [done | congruence | congruence].
Qed.

Lemma rows_never_deleted_live_witness :
  let failing := {| Live.selectError := true; Live.insertError := true;
                    Live.updateError := false; Live.fetchRejects := true |} in
  let w := {| users := <["42" := newRow Sample.amb 42]> ∅; pendingTasks := ∅; outbox := [] |} in
  ∃ row', users (Live.run Sample.env
                   [(liveInputs zeroPointSix failing, Sample.textFrom 42 "/click");
                    (liveInputs zeroPointSix failing, Sample.textFrom 42 "/start")] w) !! "42"
            = Some row' ∧
          telegram_id row' = telegram_id (newRow Sample.amb 42) ∧
          created_at row' = created_at (newRow Sample.amb 42).
Proof.
  apply (rows_never_deleted_live Sample.env). reflexivity.
Defined.

(** ** The store helpers, with the failures in view *)

(** X12. [ensureUser] with the store calls that can fail. It returns the
    row of the identity when the select succeeds and finds one, the new
    row with 0 points when no row exists and the insert succeeds, and
    [null] otherwise: when the select fails on an identity that has a row
    (the insert then fails on the duplicate), or when the row is missing
    and the insert fails. A row returned is the row of the identity in the
    table afterwards and holds the balance the table held before; no other
    row is touched, and an existing row is never changed. *)
Theorem ensureUser_live f date telegramId (t : gmap string UserRow) :
  let key := Js.String_ telegramId in
  let r := Live.ensureUser f date telegramId t in
  (∀ row, t !! key = Some row →
     r.2 = t ∧ r.1 = if Live.selectError f then None else Some row) ∧
  (t !! key = None →
     if Live.insertError f then r = (None, t)
     else r = (Some {| telegram_id := key; points := 0; created_at := date |},
               <[key := {| telegram_id := key; points := 0; created_at := date |}]> t)) ∧
  (∀ row, r.1 = Some row →
     r.2 !! key = Some row ∧ points row = pointsOr0 (t !! key)) ∧
  (∀ k, k ≠ key → r.2 !! k = t !! k).
Proof.
  cbv zeta. unfold Live.ensureUser, Live.getUser, Live.createUser, Users.select, Users.insert.
  cbn [telegram_id].
  destruct (t !! Js.String_ telegramId) as [row0|] eqn:Hrow;
    destruct (Live.selectError f), (Live.insertError f); cbn [fst snd];
    repeat split; intros; simplify_eq/=; try done;
    rewrite ?Hrow, ?lookup_insert_eq; try done;
    by rewrite lookup_insert_ne.
Qed.

(** X13. [updatePoints] with the store calls that can fail. The total it
    returns is the double sum of the delta and the balance it read, which
    is 0 when the select failed, also on an identity that has a row; the
    update, unless it fails, stores that total over the row of the
    identity when there is one, and no other row is ever touched. With no
    failure and sums in the exact range two calls one after the other
    return and store the balance plus both deltas. *)
Theorem updatePoints_live f telegramId delta (t : gmap string UserRow) :
  let key := Js.String_ telegramId in
  let r := Live.updatePoints f telegramId delta t in
  r.1 = Double.add (if Live.selectError f then 0 else pointsOr0 (t !! key)) delta ∧
  (Live.updateError f = true → r.2 = t) ∧
  (Live.updateError f = false →
     r.2 !! key =
       (λ row, {| telegram_id := telegram_id row; points := r.1;
                  created_at := created_at row |}) <$> t !! key) ∧
  (∀ k, k ≠ key → r.2 !! k = t !! k) ∧
  (∀ d2, quiet f → is_Some (t !! key) →
     - 2 ^ 53 < pointsOr0 (t !! key) + delta < 2 ^ 53 →
     - 2 ^ 53 < pointsOr0 (t !! key) + delta + d2 < 2 ^ 53 →
     let r2 := Live.updatePoints f telegramId d2 r.2 in
     r.1 = pointsOr0 (t !! key) + delta ∧
     r2.1 = pointsOr0 (t !! key) + delta + d2 ∧
     pointsOr0 (r2.2 !! key) = r2.1).
Proof.
  cbv zeta. unfold Live.updatePoints, Live.getUser, Users.select, Users.update_points.
  cbn [fst snd].
  split; [by destruct (Live.selectError f) |].
  split; [by intros -> |].
  split; [intros ->; by rewrite lookup_alter_eq |].
  split; [intros k Hk; destruct (Live.updateError f); [done | by rewrite lookup_alter_ne] |].
  intros d2 (-> & _ & -> & _) [row Hrow] H1 H2.
  rewrite !lookup_alter_eq, Hrow in *. cbn [fmap option_fmap option_map pointsOr0 points] in *.
  rewrite (add_exact _ delta) by done. rewrite add_exact by done. done.
Qed.

(** X16. A submit of the dashboard form ends with exactly one of the points
    and the error set. The points are shown when, and only when, the id
    typed is not empty, the query ends without an error and the table has
    a row under exactly that text, and they are the points of that row; an
    empty id gives the request to enter one without a query; a query error
    or a missing row gives the one not-found-or-error message. *)
Theorem dashboard_points_or_error_live queryError (table : gmap string UserRow) s :
  let s' := handleSubmitLive queryError table s in
  Dashboard.telegramId s' = Dashboard.telegramId s ∧
  (Dashboard.points s' = None ↔ is_Some (Dashboard.error s')) ∧
  (∀ p, Dashboard.points s' = Some p ↔
        Dashboard.telegramId s ≠ "" ∧ queryError = false ∧
        ∃ row, table !! Dashboard.telegramId s = Some row ∧ points row = p) ∧
  (Dashboard.telegramId s = "" →
     Dashboard.error s' = Some "Please enter your Telegram ID" ∧
     Dashboard.loading s' = Dashboard.loading s) ∧
  (Dashboard.telegramId s ≠ "" →
     Dashboard.loading s' = false ∧
     (queryError = true ∨ table !! Dashboard.telegramId s = None →
      Dashboard.error s' = Some "User not found or database error")).
Proof.
  unfold handleSubmitLive, Users.select, dataPoints.
  destruct (Dashboard.telegramId s) as [|c id] eqn:Hid; cbn zeta.
  - cbn. repeat split; try done; try (by eexists); by intros [? ?].
  - destruct queryError; [| destruct (table !! String c id) as [row|] eqn:Hrow]; cbn;
      repeat split; try done; try (by eexists).
    + by intros (_ & [=] & _).
    + simplify_eq. eauto.
    + intros (_ & _ & row' & [= <-] & <-). done.
    + by intros [[=]|[=]].
    + by intros (_ & _ & row' & [=] & _).
Qed.

Lemma handleSubmitLive_answered (table : gmap string UserRow) s :
  handleSubmitLive false table s = Dashboard.handleSubmit table s.
Proof. unfold handleSubmitLive, Dashboard.handleSubmit. by destruct (Dashboard.telegramId s). Qed.

(** X17. The dashboard agrees with the bot when nothing fails: once the bot
    has answered a [/start] or a [/points] of a chat outside the guess
    mode, with no store call failing, the [fetch] resolving and the balance
    in the exact range, a lookup of the chat id, typed as [String] writes
    it and answered without a query error, shows the balance of the chat
    and no error; and the reply to a [/points] announced that balance. *)
Theorem dashboard_agrees_with_bot_live env inp request chatId raw w s :
  quiet (Live.faults inp) → exactFor 5 w chatId →
  delivers env request chatId raw → chatId ≠ 0 →
  isGuess (pendingOf w chatId) = false →
  Js.startsWith (Js.trim raw) "/start" || Js.startsWith (Js.trim raw) "/points" = true →
  let w' := Live.handle env w (inp, request) in
  let s' := handleSubmitLive false (users w')
              (Dashboard.onChange (Js.String_ chatId) s) in
  (Js.startsWith (Js.trim raw) "/start" = false →
     outbox w' = (outbox w ++ [(chatId, ("You have " ++ Js.String_ (balance w chatId)
                                           ++ " points.")%string)])%list) ∧
  Dashboard.points s' = Some (balance w chatId) ∧
  Dashboard.error s' = None.
Proof.
  intros Hq Hex Hd Hz Hg Hs. cbv zeta.
  rewrite handleSubmitLive_answered, Live_handle_refines; [| done |].
  2: { intros c Hc. destruct Hd as (_ & Hu & _). by simplify_eq. }
  destruct (dashboard_agrees_with_bot env (ambOf inp) request chatId raw w s Hd Hz Hg Hs)
    as (Ho & Hp & He).
  split; [| done]. intros Hstart. rewrite Ho. unfold balanceReply. by rewrite Hstart.
Qed.

Lemma dashboard_agrees_with_bot_live_witness :
  let inp := liveInputs zeroPointSix Live.noFaults in
  let w := run Sample.env [(Sample.amb, Sample.textFrom 42 "/start");
                           (Sample.amb, Sample.textFrom 42 "/click")] Sample.fresh in
  let w' := Live.handle Sample.env w (inp, Sample.textFrom 42 "/points") in
  let s' := handleSubmitLive false (users w')
              (Dashboard.onChange (Js.String_ 42) Dashboard.initial) in
  (Js.startsWith (Js.trim "/points") "/start" = false →
     outbox w' = (outbox w ++ [(42, ("You have " ++ Js.String_ (balance w 42)
                                       ++ " points.")%string)])%list) ∧
  Dashboard.points s' = Some (balance w 42) ∧
  Dashboard.error s' = None.
Proof.
  apply (dashboard_agrees_with_bot_live Sample.env (liveInputs zeroPointSix Live.noFaults)
           (Sample.textFrom 42 "/points") 42 "/points").
  - repeat split.
  - vm_compute. split; reflexivity.
  - apply delivers_textFrom.
  - lia.
  - reflexivity.
  - reflexivity.
Defined.

(** ** Concurrent calls, with the failures in view *)

Lemma stepCallLive_quiet f c (t : gmap string UserRow) :
  quiet f →
  (∀ id d, c = AtSelect id d → - 2 ^ 53 < pointsOr0 (t !! Js.String_ id) + d < 2 ^ 53) →
  stepCallLive f c t = stepCall c t.
Proof.
  intros (Hs & _ & Hu & _) Hex. destruct c as [id d | id m | m]; cbn [stepCallLive stepCall].
  - unfold Live.getUser, Users.select. rewrite Hs, add_exact; [done |]. by apply Hex.
  - by rewrite Hu.
  - done.
Qed.

Lemma returnedCount_lt calls i c :
  calls !! i = Some c → isReturned c = false → (returnedCount calls < length calls)%nat.
Proof.
  revert i. induction calls as [|x calls IH]; intros [|i] Hi Hc; simpl in *; try done.
  - simplify_eq. rewrite Hc. pose proof (returnedCount_le calls). lia.
  - specialize (IH _ Hi Hc). destruct (isReturned x); lia.
Qed.

Lemma runScheduleLive_increments u b sched : ∀ calls (t : gmap string UserRow),
  Forall (λ p : nat * Live.Faults, quiet p.2) sched →
  - 2 ^ 53 < b → b + Z.of_nat (length calls) < 2 ^ 53 →
  is_Some (t !! Js.String_ u) →
  b <= pointsOr0 (t !! Js.String_ u) <= b + Z.of_nat (returnedCount calls) →
  ((0 < returnedCount calls)%nat → b + 1 <= pointsOr0 (t !! Js.String_ u)) →
  Forall (incrementWithin u b (returnedCount calls)) calls →
  runScheduleLive sched calls t = runSchedule sched.*1 calls t.
Proof.
  induction sched as [|[i f] sched IH]; intros calls t Hq Hlo Hhi Hrow Hb Hpos Hall; [done |].
  apply Forall_cons in Hq as [Hf Hq]. cbn [runScheduleLive runSchedule fmap list_fmap fst snd] in *.
  destruct (calls !! i) as [c|] eqn:Hi; [| by apply IH].
  rewrite stepCallLive_quiet; [| done |].
  2: { intros id d ->. pose proof (Forall_lookup_1 _ _ _ _ Hall Hi) as [-> ->].
       pose proof (returnedCount_lt _ _ _ Hi eq_refl). lia. }
  pose proof (increments_invariant u b [i] calls t _ eq_refl Hrow Hb Hpos Hall) as Hinv.
  cbn [runSchedule] in Hinv. rewrite Hi in Hinv.
  destruct (stepCall c t) as [c' t'] eqn:Hstep. cbn [fst snd] in Hinv.
  destruct Hinv as (? & ? & ? & ? & Hlen).
  apply IH; try done. by rewrite Hlen.
Qed.

(** X14. However the store interleaves the queries of [n] concurrent calls
    [updatePoints(u, 1)] on an identity that has a row, when none of the
    queries fails and the balance stays in the exact range: the balance
    never drops below the one before the calls and never exceeds it by more
    than the number of calls that have returned; once a call has returned
    the balance is at least one higher; and every call returns a total
    between the old balance plus 1 and the old balance plus [n]. *)
Theorem concurrent_increments_bounded_live u n sched (t : gmap string UserRow) row :
  Forall (λ p : nat * Live.Faults, quiet p.2) sched →
  t !! Js.String_ u = Some row →
  - 2 ^ 53 < points row → points row + Z.of_nat n < 2 ^ 53 →
  let r := runScheduleLive sched (replicate n (AtSelect u 1)) t in
  let after := pointsOr0 (r.2 !! Js.String_ u) in
  points row <= after <= points row + Z.of_nat (returnedCount r.1) ∧
  ((0 < returnedCount r.1)%nat → points row + 1 <= after) ∧
  (returnedCount r.1 ≤ n)%nat ∧
  ∀ i total, r.1 !! i = Some (Returned total) →
             points row + 1 <= total <= points row + Z.of_nat n.
Proof.
  intros Hq Hrow Hlo Hhi.
  assert (returnedCount (replicate n (AtSelect u 1)) = 0%nat) as H0.
  { clear. induction n as [|n IH]; simpl; [done | by rewrite IH]. }
  rewrite (runScheduleLive_increments u (points row)).
  - by apply concurrent_increments_bounded.
  - done.
  - done.
  - by rewrite length_replicate.
  - by eexists.
  - rewrite Hrow, H0. simpl. lia.
  - rewrite H0. lia.
  - rewrite H0. apply Forall_forall. intros c [-> _]%elem_of_replicate. done.
Qed.

Lemma concurrent_increments_bounded_live_witness :
  let ok := Live.noFaults in
  let r := runScheduleLive [(0, ok); (1, ok); (2, ok); (0, ok); (1, ok); (2, ok)]%nat
             (replicate 3 (AtSelect 7 1)) Sample.oneUser in
  let after := pointsOr0 (r.2 !! Js.String_ 7) in
  0 <= after <= 0 + Z.of_nat (returnedCount r.1) ∧
  ((0 < returnedCount r.1)%nat → 0 + 1 <= after) ∧
  (returnedCount r.1 ≤ 3)%nat ∧
  ∀ i total, r.1 !! i = Some (Returned total) → 0 + 1 <= total <= 0 + Z.of_nat 3.
Proof.
  apply (concurrent_increments_bounded_live 7 3
           [(0, Live.noFaults); (1, Live.noFaults); (2, Live.noFaults);
            (0, Live.noFaults); (1, Live.noFaults); (2, Live.noFaults)]%nat Sample.oneUser
           {| telegram_id := "7"; points := 0; created_at := "2025-01-01T00:00:00.000Z" |}).
  - repeat constructor.
  - reflexivity.
  - simpl. lia.
  - simpl. lia.
Defined.

Lemma runScheduleLive_alone t0 (specs : list (Z * Z)) sched :
  NoDup specs.*1 →
  (∀ i spec, specs !! i = Some spec →
     - 2 ^ 53 < pointsOr0 (t0 !! Js.String_ spec.1) + spec.2 < 2 ^ 53) →
  ∀ calls (t : gmap string UserRow),
    Forall (λ p : nat * Live.Faults, quiet p.2) sched →
    length calls = length specs →
    (∀ i spec c, specs !! i = Some spec → calls !! i = Some c → aloneOn t0 t spec c) →
    runScheduleLive sched calls t = runSchedule sched.*1 calls t.
Proof.
  intros Hnd Hex. induction sched as [|[j f] sched IH]; intros calls t Hq Hlen Hinv; [done |].
  apply Forall_cons in Hq as [Hf Hq]. cbn [runScheduleLive runSchedule fmap list_fmap fst snd] in *.
  destruct (calls !! j) as [c|] eqn:Hj; [| by apply IH].
  destruct (specs !! j) as [sj|] eqn:Hsj.
  2: { apply lookup_ge_None in Hsj. apply lookup_lt_Some in Hj. lia. }
  rewrite stepCallLive_quiet; [| done |].
  2: { intros id d ->. destruct (Hinv j sj _ Hsj Hj) as (-> & -> & ->). by eapply Hex. }
  pose proof (alone_invariant t0 specs [j] Hnd calls t Hlen Hinv) as Hnext.
  cbn [runSchedule] in Hnext. rewrite Hj in Hnext.
  destruct (stepCall c t) as [c' t'] eqn:Hstep. cbn [fst snd] in Hnext.
  apply IH; [done | by rewrite length_insert | done].
Qed.

(** X15. Concurrent calls of [updatePoints] on pairwise distinct identities
    do not disturb one another, however the store interleaves their
    queries, when none of the queries fails and every sum is in the exact
    range: a call that has returned has returned the balance of its
    identity before the calls plus its delta, and the row of the identity,
    when there is one, holds that total. *)
Theorem concurrent_calls_on_distinct_identities_live (specs : list (Z * Z)) sched
    (t0 : gmap string UserRow) :
  NoDup specs.*1 →
  Forall (λ p : nat * Live.Faults, quiet p.2) sched →
  (∀ i spec, specs !! i = Some spec →
     - 2 ^ 53 < pointsOr0 (t0 !! Js.String_ spec.1) + spec.2 < 2 ^ 53) →
  let r := runScheduleLive sched ((λ s : Z * Z, AtSelect s.1 s.2) <$> specs) t0 in
  ∀ i telegramId delta total,
    specs !! i = Some (telegramId, delta) →
    r.1 !! i = Some (Returned total) →
    total = pointsOr0 (t0 !! Js.String_ telegramId) + delta ∧
    (is_Some (t0 !! Js.String_ telegramId) →
     pointsOr0 (r.2 !! Js.String_ telegramId) = total).
Proof.
  intros Hnd Hq Hex.
  rewrite (runScheduleLive_alone t0 specs sched Hnd Hex).
  - by apply concurrent_calls_on_distinct_identities.
  - done.
  - by rewrite length_fmap.
  - intros k spec c Hk Hck. rewrite list_lookup_fmap, Hk in Hck. simplify_eq/=. done.
Qed.

Lemma concurrent_calls_on_distinct_identities_live_witness :
  let ok := Live.noFaults in
  let t0 : gmap string UserRow :=
    <["42" := {| telegram_id := "42"; points := 10; created_at := "" |}]> Sample.oneUser in
  let r := runScheduleLive [(0, ok); (1, ok); (0, ok); (1, ok)]%nat
             ((λ s : Z * Z, AtSelect s.1 s.2) <$> [(7, 1); (42, 5)]) t0 in
  15 = pointsOr0 (t0 !! Js.String_ 42) + 5 ∧
  (is_Some (t0 !! Js.String_ 42) → pointsOr0 (r.2 !! Js.String_ 42) = 15).
Proof.
  refine (concurrent_calls_on_distinct_identities_live [(7, 1); (42, 5)]
            [(0, Live.noFaults); (1, Live.noFaults); (0, Live.noFaults); (1, Live.noFaults)]%nat
            _ _ _ _ 1%nat 42 5 15 _ _); [| | | reflexivity | reflexivity].
  - simpl. apply NoDup_cons. split; [| apply NoDup_singleton].
    rewrite elem_of_cons, elem_of_nil. intros [H|[]]. discriminate H.
  - repeat constructor.
  - intros [|[|i]] spec Hs; simplify_eq/=; vm_compute; split; reflexivity.
Defined.
